(** * Gemini Text-to-SQL: CSV ingestion, table loading, query execution and
      chart selection

    A shallow embedding of [services/dbService.ts] (getDb, CALC_AGE,
    loadTableFromCSV, executeSQL, parseCSV, parseCSVLine) and of the chart
    selection of [components/SqlVisualizer.tsx], with the properties of the
    design document checked against them.

    Conventions.
    - A JavaScript string is the list of its UTF-16 code units ([list N]);
      [js "abc"] turns an ASCII literal into one.
    - A JavaScript number is kept as the exact rational whose rounding it is
      (see [number]); two decimal literals of the same value denote the same
      number.
    - An object is the list of its own enumerable properties in key order.
    - What the JavaScript runtime leaves to the implementation (the parser of
      non-ISO date strings, the local time zone, the clock) and the SQL engine
      (AlaSQL) are parameters of the functions that use them. *)

From Stdlib Require Import ZArith QArith Lia List Bool Ascii String.
From stdpp Require Import gmap.
Import ListNotations.

Local Open Scope N_scope.
Local Open Scope list_scope.

(** ** Part I: definitions *)

(** *** Strings as UTF-16 code units *)

Abbreviation jsstring := (list N).

Definition js (s : string) : jsstring :=
  List.map N_of_ascii (list_ascii_of_string s).

Definition str_eqb (a b : jsstring) : bool :=
  if decide (a = b) then true else false.

(** The code units the source tests for. *)
Definition QUOTE : N := 34.       (* the double quote *)
Definition COMMA : N := 44.
Definition PERCENT : N := 37.
Definition SLASH : N := 47.
Definition DASH : N := 45.
Definition UNDERSCORE : N := 95.
Definition LF : N := 10.          (* \n *)
Definition CR : N := 13.          (* \r *)
Definition BOM : N := 65279.      (* U+FEFF *)
Definition ZERO : N := 48.        (* the digit 0 *)
Definition DOT : N := 46.
Definition PLUS : N := 43.

(** WhiteSpace and LineTerminator of ECMAScript: what [String.prototype.trim]
    strips and what [\s] matches. *)
Definition isWhiteSpace (c : N) : bool :=
  (9 <=? c) && (c <=? 13)
  || (c =? 32) || (c =? 160) || (c =? 5760)
  || (8192 <=? c) && (c <=? 8202)
  || (c =? 8232) || (c =? 8233) || (c =? 8239) || (c =? 8287)
  || (c =? 12288) || (c =? 65279).

Definition isDigit (c : N) : bool := (48 <=? c) && (c <=? 57).
Definition isUpper (c : N) : bool := (65 <=? c) && (c <=? 90).
Definition isLower (c : N) : bool := (97 <=? c) && (c <=? 122).
Definition isAlpha (c : N) : bool := isUpper c || isLower c.
(** [[a-zA-Z0-9_]] *)
Definition isIdentChar (c : N) : bool :=
  isAlpha c || isDigit c || (c =? UNDERSCORE).

Fixpoint dropWhile {A} (p : A -> bool) (l : list A) : list A :=
  match l with
  | [] => []
  | x :: r => if p x then dropWhile p r else l
  end.

Fixpoint takeWhile {A} (p : A -> bool) (l : list A) : list A :=
  match l with
  | [] => []
  | x :: r => if p x then x :: takeWhile p r else []
  end.

Definition trimStart (s : jsstring) : jsstring := dropWhile isWhiteSpace s.
Definition trimEnd (s : jsstring) : jsstring :=
  rev (dropWhile isWhiteSpace (rev s)).
(** [s.trim()] *)
Definition trim (s : jsstring) : jsstring := trimEnd (trimStart s).

(** [s.startsWith(c)] and [s.endsWith(c)] for a one-unit [c]. *)
Definition startsWithChar (c : N) (s : jsstring) : bool :=
  match s with
  | x :: _ => x =? c
  | [] => false
  end.
Definition endsWithChar (c : N) (s : jsstring) : bool :=
  startsWithChar c (rev s).

(** [s.substring(a, b)]: both ends clamped to [0, length], swapped when
    [a > b]. *)
Definition substring (s : jsstring) (a b : Z) : jsstring :=
  let len := Z.of_nat (length s) in
  let a' := Z.min (Z.max a 0) len in
  let b' := Z.min (Z.max b 0) len in
  let lo := Z.min a' b' in
  let hi := Z.max a' b' in
  firstn (Z.to_nat (hi - lo)) (skipn (Z.to_nat lo) s).

(** [s.split(c)] for a one-unit separator: never the empty list. *)
Fixpoint splitOn (c : N) (s : jsstring) : list jsstring :=
  match s with
  | [] => [[]]
  | x :: r =>
      if x =? c then [] :: splitOn c r
      else match splitOn c r with
           | seg :: segs => (x :: seg) :: segs
           | [] => [[x]]
           end
  end.

(** The [replace] of [parseCSVLine], global: every two adjacent double quotes
    become one, left to right, matches do not overlap. *)
Fixpoint unescapeQuotes (s : jsstring) : jsstring :=
  match s with
  | x :: ((y :: r) as t) =>
      if (x =? QUOTE) && (y =? QUOTE) then QUOTE :: unescapeQuotes r
      else x :: unescapeQuotes t
  | _ => s
  end.

(** *** parseCSVLine *)

(** The [for] loop of [parseCSVLine]: [current], [inQuotes] and [values] are
    the loop's variables, [line] what is left of the input. *)
Fixpoint scanLine (line : jsstring) (current : jsstring) (inQuotes : bool)
    (values : list jsstring) : list jsstring :=
  match line with
  | [] => values ++ [current]
  | char :: rest =>
      if char =? QUOTE then scanLine rest current (negb inQuotes) values
      else if (char =? COMMA) && negb inQuotes
           then scanLine rest [] inQuotes (values ++ [current])
           else scanLine rest (current ++ [char]) inQuotes values
  end.

(** The callback of the final [values.map]. *)
Definition unquoteField (v : jsstring) : jsstring :=
  let trimmed := trim v in
  if startsWithChar QUOTE trimmed && endsWithChar QUOTE trimmed
  then unescapeQuotes (substring trimmed 1 (Z.of_nat (length trimmed) - 1))
  else v.

Definition parseCSVLine (line : jsstring) : list jsstring :=
  List.map unquoteField (scanLine line [] false []).

(** *** Numbers *)

(** A JavaScript number.  A finite number is represented by the exact
    rational it was read from, in lowest terms: the IEEE-754 double is its
    rounding, a function of that value, so equal rationals are equal
    numbers.  [-0] is not told from [0]. *)
Inductive number : Type :=
| NaN
| Num (q : Q)
| Infinity (negative : bool).

Definition isNaN (n : number) : bool :=
  match n with NaN => true | _ => false end.

Definition digitVal (c : N) : Z := Z.of_N c - 48.

(** The value of a run of decimal digits. *)
Definition digitsValue (ds : jsstring) : Z :=
  fold_left (fun acc d => (10 * acc + digitVal d)%Z) ds 0%Z.

(** [m * 10^e] in lowest terms. *)
Definition scale10 (m e : Z) : Q :=
  if (0 <=? e)%Z then inject_Z (m * 10 ^ e)
  else Qred (Qmake m (Z.to_pos (10 ^ (- e)))).

(** ExponentPart of the numeric string grammar: [e] or [E], an optional sign,
    at least one digit. *)
Definition parseExponent (s : jsstring) : option Z :=
  match s with
  | [] => Some 0%Z
  | e :: t =>
      if (e =? 101) || (e =? 69) then
        let '(sign, ds) :=
          match t with
          | c :: u =>
              if c =? PLUS then (1%Z, u)
              else if c =? DASH then ((-1)%Z, u)
              else (1%Z, t)
          | [] => (1%Z, t)
          end in
        match ds with
        | [] => None
        | _ => if forallb isDigit ds then Some (sign * digitsValue ds)%Z
               else None
        end
      else None
  end.

(** StrUnsignedDecimalLiteral without [Infinity]: digits with an optional
    fraction and exponent, or a fraction that starts with the dot. *)
Definition parseUnsignedDecimal (s : jsstring) : option Q :=
  let ip := takeWhile isDigit s in
  let r1 := dropWhile isDigit s in
  let '(fp, r2) :=
    match r1 with
    | c :: t =>
        if c =? DOT then (takeWhile isDigit t, dropWhile isDigit t)
        else ([], r1)
    | [] => ([], r1)
    end in
  match ip ++ fp with
  | [] => None
  | ds =>
      match parseExponent r2 with
      | Some e => Some (scale10 (digitsValue ds) (e - Z.of_nat (length fp)))
      | None => None
      end
  end.

(** The digit of a hexadecimal, octal or binary literal. *)
Definition radixDigit (radix : Z) (c : N) : option Z :=
  let v :=
    if isDigit c then Some (Z.of_N c - 48)%Z
    else if (97 <=? c) && (c <=? 102) then Some (Z.of_N c - 87)%Z
    else if (65 <=? c) && (c <=? 70) then Some (Z.of_N c - 55)%Z
    else None in
  match v with
  | Some d => if (d <? radix)%Z then Some d else None
  | None => None
  end.

Fixpoint radixValue (radix : Z) (acc : Z) (ds : jsstring) : option Z :=
  match ds with
  | [] => Some acc
  | d :: r =>
      match radixDigit radix d with
      | Some v => radixValue radix (radix * acc + v)%Z r
      | None => None
      end
  end.

(** NonDecimalIntegerLiteral: [0x], [0o] or [0b] (either case) and at least
    one digit. *)
Definition parseNonDecimal (s : jsstring) : option Q :=
  match s with
  | z :: p :: ((_ :: _) as ds) =>
      let radix :=
        if negb (z =? ZERO) then None
        else if (p =? 120) || (p =? 88) then Some 16%Z
        else if (p =? 111) || (p =? 79) then Some 8%Z
        else if (p =? 98) || (p =? 66) then Some 2%Z
        else None in
      match radix with
      | Some r => option_map inject_Z (radixValue r 0%Z ds)
      | None => None
      end
  | _ => None
  end.

(** [Number(s)] for a string [s] (StringToNumber): white space trimmed, the
    empty string is [0], a signed decimal or [Infinity], an unsigned
    non-decimal integer, anything else is [NaN]. *)
Definition toNumber (s : jsstring) : number :=
  let t := trim s in
  match t with
  | [] => Num 0
  | c :: r =>
      let '(negative, body) :=
        if c =? PLUS then (false, r)
        else if c =? DASH then (true, r)
        else (false, t) in
      if str_eqb body (js "Infinity") then Infinity negative
      else
        match parseUnsignedDecimal body with
        | Some q => Num (if negative then Qred (Qopp q) else q)
        | None =>
            match parseNonDecimal t with
            | Some q => Num q
            | None => NaN
            end
        end
  end.

(** *** Values and objects *)

#[warnings="-register-all"]
Inductive JSVal : Type :=
| JUndefined
| JNull
| JBool (b : bool)
| JNumber (n : number)
| JString (s : jsstring)
| JObject (props : list (jsstring * JSVal))
| JArray (elems : list JSVal).

(** The results of [typeof] that the source compares with. *)
Definition isNumberVal (v : JSVal) : bool :=
  match v with JNumber _ => true | _ => false end.
Definition isStringVal (v : JSVal) : bool :=
  match v with JString _ => true | _ => false end.
(** [typeof v === 'object' && v !== null] *)
Definition isObjectVal (v : JSVal) : bool :=
  match v with JObject _ | JArray _ => true | _ => false end.

(** The own properties of an object, in key order.  The keys written by
    this program are never array indices (see [sanitizeHeader]), so key order
    is insertion order. *)
Abbreviation props := (list (jsstring * JSVal)).

Fixpoint getProp (o : props) (k : jsstring) : JSVal :=
  match o with
  | [] => JUndefined
  | (k', v) :: r => if str_eqb k' k then v else getProp r k
  end.

Definition hasProp (o : props) (k : jsstring) : bool :=
  existsb (fun kv => str_eqb (fst kv) k) o.

Fixpoint updateProp (o : props) (k : jsstring) (v : JSVal) : props :=
  match o with
  | [] => []
  | (k', v') :: r =>
      if str_eqb k' k then (k', v) :: r else (k', v') :: updateProp r k v
  end.

(** An object created by the literal [{}], as far as [obj[k] = v] and
    [Object.keys] can tell: its own properties, and whether its prototype is
    still [Object.prototype]. *)
Record Obj : Type := mkObj {
  protoIsObjectPrototype : bool;
  ownProps : props
}.

Definition emptyObj : Obj := mkObj true [].

Definition PROTO : jsstring := js "__proto__".

(** [obj[k] = v].  An own property is overwritten in place and a new one is
    appended; but while the prototype is [Object.prototype] the key
    [__proto__] reaches the inherited setter, which creates no property: it
    replaces the prototype when [v] is an object or [null] and does nothing
    otherwise. *)
Definition setProp (o : Obj) (k : jsstring) (v : JSVal) : Obj :=
  if hasProp (ownProps o) k then
    mkObj (protoIsObjectPrototype o) (updateProp (ownProps o) k v)
  else if str_eqb k PROTO && protoIsObjectPrototype o then
    match v with
    | JNull | JObject _ | JArray _ => mkObj false (ownProps o)
    | _ => o
    end
  else mkObj (protoIsObjectPrototype o) (ownProps o ++ [(k, v)]).

(** [Object.keys(o)] *)
Definition keys (o : props) : list jsstring := List.map fst o.

(** *** Dates *)

(** Time values are milliseconds since the epoch, as integers.  The
    definitions are those of ECMAScript (Day, DayFromYear, YearFromTime,
    InLeapYear, MonthFromTime, DateFromTime, TimeClip). *)

Definition msPerDay : Z := 86400000.
Definition maxTime : Z := 8640000000000000.

Definition Day (t : Z) : Z := (t / msPerDay)%Z.

Definition DayFromYear (y : Z) : Z :=
  (365 * (y - 1970) + (y - 1969) / 4 - (y - 1901) / 100 + (y - 1601) / 400)%Z.

(** The year of a day number: the largest [y] with [DayFromYear y <= d].
    The mean Gregorian year has 365.2425 days, which gives [y] within one. *)
Definition YearFromDay (d : Z) : Z :=
  let y := (1970 + (d * 10000) / 3652425)%Z in
  if (d <? DayFromYear y)%Z then (y - 1)%Z
  else if (DayFromYear (y + 1) <=? d)%Z then (y + 1)%Z
  else y.

Definition YearFromTime (t : Z) : Z := YearFromDay (Day t).

Definition DaysInYear (y : Z) : Z :=
  if negb (y mod 4 =? 0)%Z then 365%Z
  else if negb (y mod 100 =? 0)%Z then 366%Z
  else if negb (y mod 400 =? 0)%Z then 365%Z
  else 366%Z.

Definition InLeapYear (t : Z) : Z :=
  if (DaysInYear (YearFromTime t) =? 366)%Z then 1%Z else 0%Z.

Definition DayWithinYear (t : Z) : Z :=
  (Day t - DayFromYear (YearFromTime t))%Z.

(** The first day of each month within the year, January to December, and
    the end of the year. *)
Definition monthStarts (leap : Z) : list Z :=
  [0; 31; 59 + leap; 90 + leap; 120 + leap; 151 + leap; 181 + leap;
   212 + leap; 243 + leap; 273 + leap; 304 + leap; 334 + leap]%Z.

(** MonthFromTime, 0 for January. *)
Definition MonthFromTime (t : Z) : Z :=
  let d := DayWithinYear t in
  (Z.of_nat (length (List.filter (fun s => (s <=? d)%Z)
                       (monthStarts (InLeapYear t)))) - 1)%Z.

(** DateFromTime, the day of the month from 1. *)
Definition DateFromTime (t : Z) : Z :=
  let d := DayWithinYear t in
  (d - nth (Z.to_nat (MonthFromTime t)) (monthStarts (InLeapYear t)) 0 + 1)%Z.

(** MakeDay for a year, a month from 0 to 11 and a day of the month. *)
Definition MakeDay (year month date : Z) : Z :=
  let leap := if (DaysInYear year =? 366)%Z then 1%Z else 0%Z in
  (DayFromYear year + nth (Z.to_nat month) (monthStarts leap) 0 + date - 1)%Z.

(** TimeClip: a time value, or the invalid date. *)
Definition TimeClip (t : Z) : option Z :=
  if (Z.abs t <=? maxTime)%Z then Some t else None.

(** The decimal digits of a natural number, most significant first. *)
Fixpoint digitsFuel (fuel : nat) (n : N) (acc : jsstring) : jsstring :=
  match fuel with
  | O => acc
  | S f =>
      let acc' := (48 + n mod 10) :: acc in
      if n <? 10 then acc' else digitsFuel f (n / 10) acc'
  end.

(** [String(n)] for a natural number [n]. *)
Definition natToString (n : N) : jsstring :=
  digitsFuel (S (N.to_nat (N.log2 n))) n [].

Fixpoint repeatChar (c : N) (k : nat) : jsstring :=
  match k with O => [] | S k' => c :: repeatChar c k' end.

(** [s.padStart(width, '0')] *)
Definition padStart0 (width : nat) (s : jsstring) : jsstring :=
  repeatChar ZERO (width - length s) ++ s.

(** [d.toISOString().split('T')[0]] for a valid date: the year with four
    digits, or signed with six outside 0..9999, then month and day. *)
Definition isoDate (t : Z) : jsstring :=
  let y := YearFromTime t in
  let ys :=
    if (0 <=? y)%Z && (y <=? 9999)%Z then padStart0 4 (natToString (Z.to_N y))
    else (if (y <? 0)%Z then 45 else 43)
           :: padStart0 6 (natToString (Z.to_N (Z.abs y))) in
  ys ++ [DASH] ++ padStart0 2 (natToString (Z.to_N (MonthFromTime t + 1)))
     ++ [DASH] ++ padStart0 2 (natToString (Z.to_N (DateFromTime t))).

(** What the runtime decides and the source does not: [Date.parse] on the
    strings the program gives it (none is in the ISO format of the standard,
    so the result is the implementation's; [None] is the invalid date), and
    the clock [Date.now()]. *)
Record Runtime : Type := mkRuntime {
  dateParse : jsstring -> option Z;
  dateNow : Z
}.

(** [new Date(s).getTime()], [None] for [NaN]. *)
Definition newDateFromString (rt : Runtime) (s : jsstring) : option Z :=
  match dateParse rt s with
  | Some t => TimeClip t
  | None => None
  end.

(** *** Header and table-name sanitization *)

(** [s.replace(/\s+/g, '_')]: every maximal run of white space becomes one
    underscore.  [inRun] says that the previous unit was white space. *)
Fixpoint wsRunsToUnderscore (inRun : bool) (s : jsstring) : jsstring :=
  match s with
  | [] => []
  | c :: r =>
      if isWhiteSpace c
      then if inRun then wsRunsToUnderscore true r
           else UNDERSCORE :: wsRunsToUnderscore true r
      else c :: wsRunsToUnderscore false r
  end.

(** [s.replace(/_+/g, '_')] *)
Fixpoint collapseUnderscores (inRun : bool) (s : jsstring) : jsstring :=
  match s with
  | [] => []
  | c :: r =>
      if c =? UNDERSCORE
      then if inRun then collapseUnderscores true r
           else UNDERSCORE :: collapseUnderscores true r
      else c :: collapseUnderscores false r
  end.

(** [/^[0-9]/.test(s)] *)
Definition startsWithDigit (s : jsstring) : bool :=
  match s with
  | c :: _ => isDigit c
  | [] => false
  end.

(** The name [clean] computed for header [h] at index [i] in [parseCSV],
    before the duplicates are numbered. *)
Definition sanitizeHeader (h : jsstring) (i : nat) : jsstring :=
  let clean := List.filter isIdentChar (wsRunsToUnderscore false (trim h)) in
  let clean :=
    match clean with
    | [] => js "col_" ++ natToString (N.of_nat i)
    | _ => clean
    end in
  if startsWithDigit clean then UNDERSCORE :: clean else clean.

(** The [while] loop that numbers a duplicate.  It runs at most once per
    member of [seenHeaders] and once more (see [uniqueLoop_fresh]), which
    [uniqueName] gives it as fuel. *)
Fixpoint uniqueLoop (fuel : nat) (clean : jsstring) (seenHeaders : gset jsstring)
    (uniqueName : jsstring) (counter : N) : jsstring :=
  match fuel with
  | O => uniqueName
  | S f =>
      if decide (uniqueName ∈ seenHeaders)
      then uniqueLoop f clean seenHeaders
             (clean ++ [UNDERSCORE] ++ natToString counter) (counter + 1)
      else uniqueName
  end.

Definition uniqueName (clean : jsstring) (seenHeaders : gset jsstring)
  : jsstring :=
  uniqueLoop (S (size seenHeaders)) clean seenHeaders clean 1.

(** The [rawHeaders.map] of [parseCSV]: [i] is the index of the first header
    of [rawHeaders], [seenHeaders] the names given so far. *)
Fixpoint sanitizeHeaders (rawHeaders : list jsstring) (i : nat)
    (seenHeaders : gset jsstring) : list jsstring :=
  match rawHeaders with
  | [] => []
  | h :: r =>
      let u := uniqueName (sanitizeHeader h i) seenHeaders in
      u :: sanitizeHeaders r (S i) ({[u]} ∪ seenHeaders)
  end.

(** Step 1 of [loadTableFromCSV]. *)
Definition sanitizeTableName (tableName : jsstring) : jsstring :=
  let s := List.map (fun c => if isIdentChar c then c else UNDERSCORE)
             (wsRunsToUnderscore false tableName) in
  let s := if startsWithDigit s then UNDERSCORE :: s else s in
  collapseUnderscores false s.

(** *** Cell values *)

(** [/^(\d{1,2})-([A-Za-z]{3})-(\d{2,4})$/] *)
Definition matchDayMonthName (val : jsstring) : bool :=
  let d := takeWhile isDigit val in
  (Nat.leb 1 (length d) && Nat.leb (length d) 2) &&
  match dropWhile isDigit val with
  | s1 :: a :: b :: c :: s2 :: y =>
      (s1 =? DASH) && isAlpha a && isAlpha b && isAlpha c && (s2 =? DASH)
      && forallb isDigit y && Nat.leb 2 (length y) && Nat.leb (length y) 4
  | _ => false
  end.

(** [/^\d{1,2}\/\d{1,2}\/\d{4}$/] *)
Definition matchSlashDate (val : jsstring) : bool :=
  let d := takeWhile isDigit val in
  (Nat.leb 1 (length d) && Nat.leb (length d) 2) &&
  match dropWhile isDigit val with
  | s1 :: r =>
      let m := takeWhile isDigit r in
      (s1 =? SLASH) && (Nat.leb 1 (length m) && Nat.leb (length m) 2) &&
      match dropWhile isDigit r with
      | s2 :: y => (s2 =? SLASH) && forallb isDigit y && Nat.eqb (length y) 4
      | [] => false
      end
  | [] => false
  end.

(** [val.replace(/[%]/g, '').split('/')[0].trim()] *)
Definition numericClean (val : jsstring) : jsstring :=
  trim (hd [] (splitOn SLASH (List.filter (fun c => negb (c =? PERCENT)) val))).

(** [val.length === 10 && /^[6-9]/.test(val)] *)
Definition looksLikePhone (val : jsstring) : bool :=
  Nat.eqb (length val) 10 &&
  match val with
  | c :: _ => (54 <=? c) && (c <=? 57)
  | [] => false
  end.

(** The body of the [headers.forEach] callback of [parseCSV]: the value
    stored for [values[index]], which is a string or [undefined]. *)
Definition cellValue (rt : Runtime) (field : option jsstring) : JSVal :=
  match field with
  | None => JNull
  | Some raw =>
      let val := trim raw in
      let nc := numericClean val in
      if negb (str_eqb nc []) && negb (isNaN (toNumber nc)) then
        if looksLikePhone val then JString val else JNumber (toNumber nc)
      else if matchDayMonthName val then
        match newDateFromString rt val with
        | Some t => JString (isoDate t)
        | None => JString val
        end
      else if matchSlashDate val then
        let parts := splitOn SLASH val in
        JString (nth 2 parts [] ++ [DASH] ++ padStart0 2 (nth 1 parts [])
                   ++ [DASH] ++ padStart0 2 (nth 0 parts []))
      else JString val
  end.

(** *** parseCSV *)

(** [text.replace(/\r\n/g, '\n')] *)
Fixpoint replaceCRLF (s : jsstring) : jsstring :=
  match s with
  | x :: ((y :: r) as t) =>
      if (x =? CR) && (y =? LF) then LF :: replaceCRLF r
      else x :: replaceCRLF t
  | _ => s
  end.

(** [text.replace(/\r/g, '\n')] *)
Definition replaceCR (s : jsstring) : jsstring :=
  List.map (fun c => if c =? CR then LF else c) s.

(** The object built for one data line: [obj[header] = val] for every
    header, in order. *)
Fixpoint fillRow (rt : Runtime) (headers : list jsstring) (index : nat)
    (values : list jsstring) (obj : Obj) : Obj :=
  match headers with
  | [] => obj
  | header :: r =>
      fillRow rt r (S index) values
        (setProp obj header (cellValue rt (nth_error values index)))
  end.

(** The body of the [for] loop over the data lines: [None] when the line is
    skipped by a [continue]. *)
Definition parseRow (rt : Runtime) (headers : list jsstring)
    (currentLine : jsstring) : option props :=
  if str_eqb (trim currentLine) [] then None
  else
    let values := parseCSVLine currentLine in
    match values with
    | [[]] => None
    | _ => Some (ownProps (fillRow rt headers 0 values emptyObj))
    end.

(** The lines kept by [parseCSV]: line ends normalized, blank lines
    dropped. *)
Definition csvLines (text : jsstring) : list jsstring :=
  List.filter (fun l => negb (str_eqb (trim l) []))
    (splitOn LF (replaceCR (replaceCRLF text))).

(** The header names of a CSV text. *)
Definition csvHeaders (text : jsstring) : list jsstring :=
  match csvLines text with
  | headerLine :: _ => sanitizeHeaders (parseCSVLine headerLine) 0 ∅
  | [] => []
  end.

(** Every row is the list of the own properties of its object, in key
    order. *)
Definition parseCSV (rt : Runtime) (text : jsstring) : list props :=
  let lines := csvLines text in
  if Nat.ltb (length lines) 2 then []
  else
    match lines with
    | [] => []
    | headerLine :: dataLines =>
        let headers := sanitizeHeaders (parseCSVLine headerLine) 0 ∅ in
        omap (parseRow rt headers) dataLines
    end.

(** *** The SQL engine and getDb *)

(** A table of the engine: the field the program writes. *)
Record Table : Type := mkTable { data : list JSVal }.

(** The state of [window.alasql] the program can see: the table registry
    [alasql.tables] (a plain object, possibly absent) and the entry
    [alasql.fn.CALC_AGE] ([None] when nothing is registered under the name). *)
Record Alasql : Type := mkAlasql {
  tables : option (gmap jsstring Table);
  fnCALC_AGE : option (option jsstring -> JSVal)
}.

(** A thrown [Error]. *)
Record JSError : Type := mkError { message : jsstring }.

(** How a call of the engine ends, with the state it leaves. *)
Inductive Completion : Type :=
| Returned (result : JSVal) (db : Alasql)
| Thrown (e : JSError) (db : Alasql).

(** The SQL interpreter [alasql(sql, params)]: not code of this program, so a
    parameter.  [params] is [None] for the one-argument call. *)
Definition Engine : Type :=
  jsstring -> option (list JSVal) -> Alasql -> Completion.

(** [window.alasql]: the engine's state, or [None] while the library is not
    loaded. *)
Definition World : Type := option Alasql.

(** How a service function ends: a result, or a thrown error (a rejected
    promise for the asynchronous [loadTableFromCSV]); both with the world
    they leave. *)
Inductive Outcome (A : Type) : Type :=
| Ok (a : A) (w : World)
| Err (e : JSError) (w : World).
Arguments Ok {A} a w.
Arguments Err {A} e w.

(** The scalar function registered as [CALC_AGE].  [dateStr] is a string by
    its signature; [None] stands for an absent value ([null] or
    [undefined]). *)
Definition CALC_AGE (rt : Runtime) (dateStr : option jsstring) : JSVal :=
  match dateStr with
  | None => JNull
  | Some [] => JNull
  | Some s =>
      match newDateFromString rt s with
      | None => JNull
      | Some dob =>
          let diff := (dateNow rt - dob)%Z in
          match TimeClip diff with
          | None => JNumber NaN
          | Some age =>
              JNumber (Num (inject_Z (Z.abs (YearFromTime age - 1970))))
          end
      end
  end.

(** [if (!window.alasql.fn.CALC_AGE) window.alasql.fn.CALC_AGE = ...] *)
Definition registerCalcAge (rt : Runtime) (db : Alasql) : Alasql :=
  match fnCALC_AGE db with
  | None => mkAlasql (tables db) (Some (CALC_AGE rt))
  | Some _ => db
  end.

Definition getDb (rt : Runtime) (w : World) : Outcome Alasql :=
  match w with
  | Some db =>
      let db' := registerCalcAge rt db in
      Ok db' (Some db')
  | None => Err (mkError (js "Database engine not initialized")) None
  end.

(** *** loadTableFromCSV *)

Record TableColumn : Type := mkColumn {
  name : jsstring;
  type : jsstring
}.

Record TableSchema : Type := mkSchema {
  tableName : jsstring;
  columns : list TableColumn;
  rowCount : nat;
  sampleData : list props
}.

(** [csvContent.replace(/^\uFEFF/, '')] *)
Definition stripBOM (s : jsstring) : jsstring :=
  match s with
  | c :: r => if c =? BOM then r else s
  | [] => s
  end.

(** The names [db.tables[name]] finds on [Object.prototype] when the
    registry has no table of that name; a sanitized name has no two
    adjacent underscores, which excludes the others. *)
Definition inheritedNames : list jsstring :=
  [js "constructor"; js "toString"; js "toLocaleString"; js "valueOf";
   js "hasOwnProperty"; js "isPrototypeOf"; js "propertyIsEnumerable"].

(** Step 4: [db.tables[safeTableName].data = rows] when the registry has
    the table, the [SELECT ... INTO] otherwise. *)
Definition insertData (eng : Engine) (safeTableName : jsstring)
    (rows : list props) (db : Alasql) : Completion :=
  match tables db with
  | Some ts =>
      match ts !! safeTableName with
      | Some _ =>
          Returned JUndefined
            (mkAlasql (Some (<[safeTableName := mkTable (List.map JObject rows)]> ts))
               (fnCALC_AGE db))
      | None =>
          if existsb (str_eqb safeTableName) inheritedNames
          then Returned JUndefined db
          else eng (js "SELECT * INTO " ++ safeTableName ++ js " FROM ?")
                 (Some [JArray (List.map JObject rows)]) db
      end
  | None =>
      eng (js "SELECT * INTO " ++ safeTableName ++ js " FROM ?")
        (Some [JArray (List.map JObject rows)]) db
  end.

(** Step 5: the column labels, from the first row. *)
Definition inferColumns (firstRow : props) : list TableColumn :=
  List.map (fun key =>
         mkColumn key (if isNumberVal (getProp firstRow key)
                       then js "NUMBER" else js "STRING"))
    (keys firstRow).

Definition dbError (e : JSError) : JSError :=
  mkError (js "Database error: " ++ message e).

Definition loadTableFromCSV (eng : Engine) (rt : Runtime)
    (tableName csvContent : jsstring) (w : World) : Outcome TableSchema :=
  match getDb rt w with
  | Err e w' => Err e w'
  | Ok db _ =>
      let safeTableName := sanitizeTableName tableName in
      let rows := parseCSV rt (stripBOM csvContent) in
      match rows with
      | [] =>
          Err (mkError (js "CSV file is empty or could not be parsed")) (Some db)
      | firstRow :: _ =>
          match eng (js "DROP TABLE IF EXISTS " ++ safeTableName) None db with
          | Thrown e db1 => Err (dbError e) (Some db1)
          | Returned _ db1 =>
              match eng (js "CREATE TABLE " ++ safeTableName) None db1 with
              | Thrown e db2 => Err (dbError e) (Some db2)
              | Returned _ db2 =>
                  match insertData eng safeTableName rows db2 with
                  | Thrown e db3 => Err (dbError e) (Some db3)
                  | Returned _ db3 =>
                      Ok (mkSchema safeTableName (inferColumns firstRow)
                            (length rows) (firstn 3 rows))
                         (Some db3)
                  end
              end
          end
      end
  end.

(** *** executeSQL *)

Record QueryResult : Type := mkResult {
  qdata : list JSVal;
  qcolumns : list jsstring;
  qsql : jsstring;
  qerror : option jsstring
}.

Fixpoint indexKeys (n : nat) (i : N) : list jsstring :=
  match n with
  | O => []
  | S n' => natToString i :: indexKeys n' (i + 1)
  end.

(** [Object.keys(v)] for an object or an array. *)
Definition objectKeys (v : JSVal) : list jsstring :=
  match v with
  | JObject ps => keys ps
  | JArray es => indexKeys (length es) 0
  | _ => []
  end.

(** The callback of [rows.map]. *)
Definition normalizeRow (r : JSVal) : JSVal :=
  if isObjectVal r then r else JObject [(js "value", r)].

Definition executeSQL (eng : Engine) (rt : Runtime) (sql : jsstring)
    (w : World) : Outcome QueryResult :=
  match getDb rt w with
  | Err e w' => Err e w'
  | Ok db _ =>
      match eng sql None db with
      | Returned result db' =>
          let rows := match result with JArray es => es | _ => [] end in
          let normalizedRows := List.map normalizeRow rows in
          let cols :=
            match normalizedRows with
            | r0 :: _ => objectKeys r0
            | [] => []
            end in
          Ok (mkResult normalizedRows cols sql None) (Some db')
      | Thrown error db' =>
          Ok (mkResult [] [] sql (Some (message error))) (Some db')
      end
  end.

(** *** SqlVisualizer: the choice of a chart *)

(** What [SqlVisualizer] renders: nothing, or one chart with the keys it is
    bound to.  A key is [None] where the source reads [undefined]. *)
Inductive Chart : Type :=
| NoChart
| PieChart (nameKey dataKey : jsstring)
| ScatterChart (xKey yKey : jsstring) (zKey : option jsstring)
| LineChart (xKey : option jsstring) (lines : list jsstring)
| BarChart (xKey : option jsstring) (bars : list jsstring).

(** [data[0][key]] for a key of [Object.keys(data[0])]. *)
Definition getField (row : JSVal) (key : jsstring) : JSVal :=
  match row with
  | JObject ps => getProp ps key
  | JArray es =>
      match List.find (fun iv => str_eqb (fst iv) key)
              (combine (indexKeys (length es) 0) es) with
      | Some (_, v) => v
      | None => JUndefined
      end
  | _ => JUndefined
  end.

(** [s.toLowerCase()].  Only the letters A to Z are mapped: no other code
    unit becomes one of the letters of [date] or [year], which is all the
    source looks for in the result. *)
Definition toLowerCase (s : jsstring) : jsstring :=
  List.map (fun c => if isUpper c then c + 32 else c) s.

Fixpoint isPrefixOf (p s : jsstring) : bool :=
  match p, s with
  | [], _ => true
  | _ :: _, [] => false
  | a :: p', b :: s' => (a =? b) && isPrefixOf p' s'
  end.

(** [s.includes(p)] *)
Fixpoint includes (p s : jsstring) : bool :=
  isPrefixOf p s ||
  match s with
  | [] => false
  | _ :: r => includes p r
  end.

(** [stringCols[0]?.toLowerCase().includes('date') || ...includes('year')] *)
Definition isTrend (stringCols : list jsstring) : bool :=
  match stringCols with
  | [] => false
  | c :: _ =>
      includes (js "date") (toLowerCase c) || includes (js "year") (toLowerCase c)
  end.

(** [a || b] for two keys: the empty string is falsy. *)
Definition orKey (a b : option jsstring) : option jsstring :=
  match a with
  | Some (_ :: _) => a
  | _ => b
  end.

(** [columns.filter(key => typeof data[0][key] === 'number')] and the same
    for ['string'], for the first row [first]. *)
Definition numericCols (first : JSVal) : list jsstring :=
  List.filter (fun key => isNumberVal (getField first key)) (objectKeys first).
Definition stringCols (first : JSVal) : list jsstring :=
  List.filter (fun key => isStringVal (getField first key)) (objectKeys first).

(** The conditions of the first two branches. *)
Definition pieShape (data : list JSVal) (first : JSVal) : bool :=
  Nat.leb (length data) 10 && Nat.eqb (length (stringCols first)) 1
  && Nat.eqb (length (numericCols first)) 1.
Definition scatterShape (data : list JSVal) (first : JSVal) : bool :=
  Nat.eqb (length (numericCols first)) 2 && Nat.ltb 5 (length data).

(** The chart of a query result whose first row is an object (as every row
    of [executeSQL] is). *)
Definition SqlVisualizer (result : QueryResult) : Chart :=
  match qdata result, qerror result with
  | [], _ => NoChart
  | _, Some (_ :: _) => NoChart
  | first :: _, _ =>
      let data := qdata result in
      if pieShape data first
      then PieChart (nth 0 (stringCols first) []) (nth 0 (numericCols first) [])
      else if scatterShape data first
      then ScatterChart (nth 0 (numericCols first) [])
             (nth 1 (numericCols first) []) (head (stringCols first))
      else
        let xKey := orKey (head (stringCols first)) (head (objectKeys first)) in
        if isTrend (stringCols first) then LineChart xKey (numericCols first)
        else BarChart xKey (numericCols first)
  end.

(** The caption shown above the chart. *)
Definition chartCaption (result : QueryResult) : jsstring :=
  match qdata result with
  | [] => []
  | first :: _ =>
      let data := qdata result in
      if scatterShape data first then js "Scatter"
      else if pieShape data first then js "Pie"
      else js "Chart"
  end.

(** *** App: uploading a file and asking a question *)

Inductive Role : Type := RoleUser | RoleAssistant | RoleSystem.
Inductive MessageType : Type := TypeText | TypeSqlResult | TypeError.

(** The argument of [addMessage]: a [ChatMessage] without the [id] and the
    [timestamp] that [addMessage] adds. *)
Record Message : Type := mkMessage {
  role : Role;
  content : jsstring;
  msgType : MessageType;
  msgSql : option jsstring;
  msgData : option (list JSVal);
  msgExplanation : option jsstring
}.

(** The state of the [App] component that the two handlers read and
    write. *)
Record AppState : Type := mkApp {
  appTables : list TableSchema;
  messages : list Message;
  input : jsstring;
  isLoading : bool;
  loadingStep : jsstring
}.

(** [GeminiService.generateSQL]: the language model, a parameter; it answers
    with [sql] and [explanation] or throws. *)
Definition Gemini : Type :=
  jsstring -> list TableSchema -> JSError + (jsstring * jsstring).

Definition addMessage (st : AppState) (msg : Message) : AppState :=
  mkApp (appTables st) (messages st ++ [msg]) (input st) (isLoading st)
    (loadingStep st).

(** The [finally] block of both handlers. *)
Definition stopLoading (st : AppState) : AppState :=
  mkApp (appTables st) (messages st) (input st) false [].

(** [s.replace(pat, '')] for a non-empty string [pat]: the first occurrence
    is removed. *)
Fixpoint removeFirst (pat s : jsstring) : jsstring :=
  if isPrefixOf pat s then skipn (length pat) s
  else match s with
       | [] => []
       | c :: r => c :: removeFirst pat r
       end.

(** [file.name.replace('.csv', '').replace(/\s+/g, '_')]: the table name
    [processFile] asks for. *)
Definition uploadName (fileName : jsstring) : jsstring :=
  wsRunsToUnderscore false (removeFirst (js ".csv") fileName).

(** [processFile], once the text of the file is read. *)
Definition processFile (eng : Engine) (rt : Runtime)
    (fileName text : jsstring) (st : AppState) (w : World)
  : AppState * World :=
  match loadTableFromCSV eng rt (uploadName fileName) text w with
  | Ok schema w' =>
      let st1 := mkApp (appTables st ++ [schema]) (messages st) (input st)
                   true (js "Parsing CSV & Building Database...") in
      (stopLoading
         (addMessage st1
            (mkMessage RoleSystem
               (js "Successfully loaded table: " ++ [QUOTE] ++ tableName schema
                  ++ [QUOTE] ++ js " with "
                  ++ natToString (N.of_nat (rowCount schema)) ++ js " rows.")
               TypeText None None None)), w')
  | Err error w' =>
      let st1 := mkApp (appTables st) (messages st) (input st)
                   true (js "Parsing CSV & Building Database...") in
      (stopLoading
         (addMessage st1
            (mkMessage RoleSystem (js "Error loading file: " ++ message error)
               TypeError None None None)), w')
  end.

(** The message of the [catch] block of [handleSendMessage]. *)
Definition processingFailed (error : JSError) : Message :=
  mkMessage RoleAssistant (js "Processing Failed: " ++ message error)
    TypeError None None None.

(** The [try] block of [handleSendMessage]: the assistant's message and the
    world it leaves. *)
Definition answer (eng : Engine) (rt : Runtime) (gemini : option Gemini)
    (userQuery : jsstring) (tables0 : list TableSchema) (w : World)
  : Message * World :=
  match gemini with
  | None => (processingFailed (mkError (js "Gemini Service not initialized")), w)
  | Some generateSQL =>
      match generateSQL userQuery tables0 with
      | inl error => (processingFailed error, w)
      | inr (sql, explanation) =>
          match executeSQL eng rt sql w with
          | Err error w' => (processingFailed error, w')
          | Ok result w' =>
              match qerror result with
              | Some ((_ :: _) as err) =>
                  (mkMessage RoleAssistant explanation TypeError (Some sql) None
                     (Some (js "Error: " ++ err)), w')
              | _ =>
                  (mkMessage RoleAssistant explanation TypeSqlResult (Some sql)
                     (Some (qdata result)) (Some explanation), w')
              end
          end
      end
  end.

Definition handleSendMessage (eng : Engine) (rt : Runtime)
    (gemini : option Gemini) (st : AppState) (w : World) : AppState * World :=
  if str_eqb (trim (input st)) [] || isLoading st then (st, w)
  else
    match appTables st with
    | [] =>
        (addMessage st
           (mkMessage RoleSystem
              (js "Please upload a dataset or load samples first.")
              TypeError None None None), w)
    | _ :: _ =>
        let userQuery := input st in
        let st1 := mkApp (appTables st) (messages st) [] true
                     (js "Analyzing schema...") in
        let st2 := addMessage st1
                     (mkMessage RoleUser userQuery TypeText None None None) in
        let '(reply, w') := answer eng rt gemini userQuery (appTables st) w in
        (stopLoading (addMessage st2 reply), w')
    end.

(** *** Predicates and examples used in the statements *)

(** No double quote among the code units of [s]. *)
Definition quoteFree (s : jsstring) : Prop := ~ In QUOTE s.

(** No two adjacent underscores in [s]. *)
Fixpoint noDoubleUnderscore (s : jsstring) : bool :=
  match s with
  | x :: ((y :: _) as t) =>
      negb ((x =? UNDERSCORE) && (y =? UNDERSCORE)) && noDoubleUnderscore t
  | _ => true
  end.

(** The rows [{Year, Total}] of the trend example. *)
Definition yearRow (year : string) (total : Z) : JSVal :=
  JObject [(js "Year", JString (js year));
           (js "Total", JNumber (Num (inject_Z total)))].
(** The part of the engine's contract that [loadTableFromCSV] relies on: a
    [CREATE TABLE] that returns has put the table into the registry.  It is
    asked only for the names the loader sends, the sanitized ones. *)
Definition registersCreatedTables (eng : Engine) : Prop :=
  forall (n : jsstring) (db : Alasql) (r : JSVal) (db' : Alasql),
    sanitizeTableName n = n ->
    eng (js "CREATE TABLE " ++ n) None db = Returned r db' ->
    exists ts, tables db' = Some ts /\ is_Some (ts !! n).

(** A letter, a digit, an underscore or white space. *)
Definition isNameChar (c : N) : bool := isIdentChar c || isWhiteSpace c.

(** [Some rest] when [s] is [p] followed by [rest]. *)
Fixpoint stripPrefix (p s : jsstring) : option jsstring :=
  match p, s with
  | [], _ => Some s
  | _ :: _, [] => None
  | a :: p', b :: s' => if a =? b then stripPrefix p' s' else None
  end.

(** A small engine with the two statements of [loadTableFromCSV]: it drops
    and creates tables as AlaSQL does, refuses to create a table that
    exists, and rejects every other statement. *)
Definition miniEngine : Engine := fun sql _ db =>
  let ts := default ∅ (tables db) in
  match stripPrefix (js "DROP TABLE IF EXISTS ") sql with
  | Some n =>
      Returned (JNumber (Num (match ts !! n with Some _ => 1 | None => 0 end)))
        (mkAlasql (Some (delete n ts)) (fnCALC_AGE db))
  | None =>
      match stripPrefix (js "CREATE TABLE ") sql with
      | Some n =>
          match ts !! n with
          | Some _ =>
              Thrown (mkError (js "Can not create table, because it already exists")) db
          | None =>
              Returned (JNumber (Num 1))
                (mkAlasql (Some (<[n := mkTable []]> ts)) (fnCALC_AGE db))
          end
      | None => Thrown (mkError (js "Parse error")) db
      end
  end.

(** An engine that has just been loaded. *)
Definition freshDb : Alasql := mkAlasql (Some ∅) None.

(** A runtime whose [Date.parse] rejects every string, at the epoch. *)
Definition plainRuntime : Runtime := mkRuntime (fun _ => None) 0%Z.
(** The name tried for a duplicate of [clean] when the counter is [k]. *)
Definition numbered (clean : jsstring) (k : N) : jsstring :=
  clean ++ [UNDERSCORE] ++ natToString k.

(** A sanitized identifier: not empty, letters, digits and underscores
    only, no digit in front. *)
Definition isIdentifier (s : jsstring) : bool :=
  negb (str_eqb s []) && forallb isIdentChar s && negb (startsWithDigit s).
(** The properties a data line gives the headers from index [index] on: each
    header with the value of the field at its index. *)
Fixpoint rowCells (rt : Runtime) (headers : list jsstring) (index : nat)
    (values : list jsstring) : props :=
  match headers with
  | [] => []
  | header :: r =>
      (header, cellValue rt (nth_error values index))
        :: rowCells rt r (S index) values
  end.
(** The values a cell can hold: [null], a string, or a number that is not
    [NaN]. *)
Definition isCellKind (v : JSVal) : bool :=
  match v with
  | JNull | JString _ => true
  | JNumber n => negb (isNaN n)
  | _ => false
  end.

(** A line of [segs] joined with commas. *)
Fixpoint joinCommas (segs : list jsstring) : jsstring :=
  match segs with
  | [] => []
  | [seg] => seg
  | seg :: r => seg ++ [COMMA] ++ joinCommas r
  end.
(** The properties whose key is not [__proto__]. *)
Definition withoutProto (o : props) : props :=
  List.filter (fun kv => negb (str_eqb (fst kv) PROTO)) o.
(** A result that [SqlVisualizer] draws: rows, and no error text. *)
Definition drawable (result : QueryResult) : bool :=
  match qdata result, qerror result with
  | [], _ => false
  | _, Some (_ :: _) => false
  | _, _ => true
  end.

(** An engine that throws [e] on every statement. *)
Definition throwingEngine (e : JSError) : Engine := fun _ _ db => Thrown e db.

(** The state of the [App] after login: no table, no question typed. *)
Definition idleApp (tables0 : list TableSchema) (question : jsstring) : AppState :=
  mkApp tables0 [] question false [].

(** A language model that always answers with the same query. *)
Definition fixedGemini (sql explanation : jsstring) : Gemini :=
  fun _ _ => inr (sql, explanation).

(** ** Part II: properties *)

(** *** Strings *)

Lemma str_eqb_true (a b : jsstring) : str_eqb a b = true <-> a = b.
Proof. unfold str_eqb. destruct (decide (a = b)); split; congruence. Qed.

Lemma str_eqb_false (a b : jsstring) : str_eqb a b = false <-> a <> b.
Proof. unfold str_eqb. destruct (decide (a = b)); split; congruence. Qed.

Lemma str_eqb_refl (a : jsstring) : str_eqb a a = true.
Proof. now apply str_eqb_true. Qed.

Lemma dropWhile_incl {A} (p : A -> bool) (l : list A) (x : A) :
  In x (dropWhile p l) -> In x l.
Proof.
  induction l as [|y l IH]; simpl; [tauto|].
  destruct (p y); simpl; tauto.
Qed.

Lemma trim_incl (s : jsstring) (c : N) : In c (trim s) -> In c s.
Proof.
  unfold trim, trimEnd, trimStart. intros H.
  apply in_rev, dropWhile_incl, in_rev in H.
  now apply dropWhile_incl in H.
Qed.

Lemma startsWithChar_In (c : N) (s : jsstring) :
  startsWithChar c s = true -> In c s.
Proof.
  destruct s as [|x s]; simpl; [discriminate|].
  intros H. apply N.eqb_eq in H. now left.
Qed.

(** *** parseCSVLine *)

Lemma quoteFree_snoc (s : jsstring) (c : N) :
  quoteFree s -> c <> QUOTE -> quoteFree (s ++ [c]).
Proof.
  unfold quoteFree. intros Hs Hc H. apply in_app_or in H.
  destruct H as [H|[H|[]]]; [tauto|congruence].
Qed.

(** The loop keeps every field, the finished ones and the current one, free
    of double quotes. *)
Lemma scanLine_quoteFree (line current : jsstring) (inQuotes : bool)
    (values : list jsstring) :
  Forall quoteFree values -> quoteFree current ->
  Forall quoteFree (scanLine line current inQuotes values).
Proof.
  revert current inQuotes values.
  induction line as [|char rest IH]; intros current inQuotes values Hv Hc; simpl.
  - apply Forall_app; split; [assumption|]. now constructor.
  - destruct (N.eqb_spec char QUOTE) as [->|Hq].
    + now apply IH.
    + destruct ((char =? COMMA) && negb inQuotes).
      * apply IH; [|intros []].
        apply Forall_app; split; [assumption|]. now constructor.
      * apply IH; [assumption|]. now apply quoteFree_snoc.
Qed.

Lemma unquoteField_quoteFree (v : jsstring) :
  quoteFree v -> unquoteField v = v.
Proof.
  intros Hv. unfold unquoteField.
  destruct (startsWithChar QUOTE (trim v)) eqn:E; [|reflexivity].
  exfalso. apply Hv. now apply trim_incl, startsWithChar_In.
Qed.

Lemma parseCSVLine_scanLine (line : jsstring) :
  parseCSVLine line = scanLine line [] false [].
Proof.
  unfold parseCSVLine.
  assert (H : Forall quoteFree (scanLine line [] false [])).
  { apply scanLine_quoteFree; [constructor|intros []]. }
  induction H as [|v l Hv _ IH]; simpl; [reflexivity|].
  now rewrite unquoteField_quoteFree, IH.
Qed.

(** C9: no field produced by the line tokenizer contains a double quote. *)
Theorem parseCSVLine_no_quote (line v : jsstring) :
  In v (parseCSVLine line) -> ~ In QUOTE v.
Proof.
  rewrite parseCSVLine_scanLine. intros Hin.
  assert (H : Forall quoteFree (scanLine line [] false [])).
  { apply scanLine_quoteFree; [constructor|intros []]. }
  rewrite List.Forall_forall in H. now apply H.
Qed.

(** C4: the line [QUOTE a QUOTE QUOTE b QUOTE , c] is tokenized to the two
    fields [ab] and [c]: the doubled quote inside the quoted span leaves no
    quote character in the field. *)
Theorem parseCSVLine_doubled_quote_dropped :
  parseCSVLine ([QUOTE] ++ js "a" ++ [QUOTE; QUOTE] ++ js "b" ++ [QUOTE]
                  ++ js ",c")
  = [js "ab"; js "c"].
Proof. reflexivity. Qed.

(** *** Cell values *)

(** C2: whatever the runtime, the cell [86.80 %] is stored as the number
    86.8, the cell [93.44 / -----] as the number 93.44, and the ten-digit
    cell [9876543210], which starts with a digit from 6 to 9, stays the
    string; the same holds for the row of a CSV text with these three
    cells. *)
Theorem cellValue_percent_ratio_phone (rt : Runtime) :
  cellValue rt (Some (js "86.80 %")) = JNumber (Num (Qred 86.8))
  /\ cellValue rt (Some (js "93.44 / -----")) = JNumber (Num (Qred 93.44))
  /\ cellValue rt (Some (js "9876543210")) = JString (js "9876543210")
  /\ parseCSV rt (js "Tenth,Twelfth,Mobile" ++ [LF]
                    ++ js "86.80 %,93.44 / -----,9876543210")
     = [[(js "Tenth", JNumber (Num (Qred 86.8)));
         (js "Twelfth", JNumber (Num (Qred 93.44)));
         (js "Mobile", JString (js "9876543210"))]].
Proof. repeat split; vm_compute; reflexivity. Qed.

(** C1: whatever the runtime, the cell [05/01/2001] is stored as the number
    5, not as a date: its numeric-clean candidate is [05], which is a
    number, so the date patterns are never tried. *)
Theorem cellValue_slash_date_is_number (rt : Runtime) :
  cellValue rt (Some (js "05/01/2001")) = JNumber (Num 5)
  /\ numericClean (js "05/01/2001") = js "05"
  /\ matchSlashDate (js "05/01/2001") = true.
Proof. repeat split; vm_compute; reflexivity. Qed.

(** *** executeSQL *)

(** C3, as stated, fails: while the engine is not loaded, [executeSQL]
    throws for every query. *)
Lemma executeSQL_throws_without_engine :
  ~ (forall (eng : Engine) (rt : Runtime) (sql : jsstring) (w : World),
        exists r w', executeSQL eng rt sql w = Ok r w').
Proof.
  intros H.
  destruct (H (fun _ _ db => Returned JUndefined db)
              (mkRuntime (fun _ => None) 0%Z) (js "SELECT 1") None)
    as (r & w' & E).
  discriminate E.
Qed.

(** C3, amended: with the engine loaded [executeSQL] returns a result for
    every query, with [sql] the query; when the engine throws, the result
    has no rows, no columns and the message of the thrown error as [error]
    (so a non-empty one when that message is non-empty).  With the engine
    not loaded it throws the error of [getDb]. *)
Theorem executeSQL_captures_engine_errors (eng : Engine) (rt : Runtime)
    (sql : jsstring) :
  (forall db : Alasql,
      exists r w', executeSQL eng rt sql (Some db) = Ok r w'
        /\ qsql r = sql
        /\ forall e db', eng sql None (registerCalcAge rt db) = Thrown e db' ->
             qdata r = [] /\ qcolumns r = [] /\ qerror r = Some (message e)
             /\ w' = Some db')
  /\ executeSQL eng rt sql None
     = Err (mkError (js "Database engine not initialized")) None.
Proof.
  split; [|reflexivity].
  intros db. unfold executeSQL, getDb.
  destruct (eng sql None (registerCalcAge rt db)) as [result db1|e1 db1] eqn:E.
  - eexists _, _. split; [reflexivity|]. split; [reflexivity|].
    intros e db' H. discriminate H.
  - eexists _, _. split; [reflexivity|]. split; [reflexivity|].
    intros e db' H. injection H as -> ->. now repeat split.
Qed.

(** *** SqlVisualizer *)

(** C5: four rows with the string column [Year] and one numeric column
    select a pie chart, not a line chart: the pie rule is tried first and
    holds for them. *)
Theorem SqlVisualizer_year_rows_pie :
  SqlVisualizer
    (mkResult [yearRow "2021" 40; yearRow "2022" 55; yearRow "2023" 61;
               yearRow "2024" 48]
       [js "Year"; js "Total"] (js "SELECT Year, Total FROM t") None)
  = PieChart (js "Year") (js "Total").
Proof. reflexivity. Qed.

(** *** Sanitizers *)

Lemma isIdentChar_cases (c : N) :
  isIdentChar c = true ->
  48 <= c <= 57 \/ 65 <= c <= 90 \/ 97 <= c <= 122 \/ c = 95.
Proof.
  unfold isIdentChar, isAlpha, isUpper, isLower, isDigit, UNDERSCORE.
  rewrite !orb_true_iff, !andb_true_iff, !N.leb_le, N.eqb_eq. lia.
Qed.

Lemma isIdentChar_not_space (c : N) :
  isIdentChar c = true -> isWhiteSpace c = false.
Proof.
  intros H. apply isIdentChar_cases in H. unfold isWhiteSpace.
  rewrite !orb_false_iff, !andb_false_iff, !N.leb_gt, !N.eqb_neq. lia.
Qed.

Lemma isDigit_bounds (c : N) : isDigit c = true -> 48 <= c <= 57.
Proof. unfold isDigit. rewrite andb_true_iff, !N.leb_le. tauto. Qed.

Lemma dropWhile_none {A} (p : A -> bool) (l : list A) :
  forallb (fun x => negb (p x)) l = true -> dropWhile p l = l.
Proof.
  destruct l as [|x l]; simpl; [reflexivity|].
  destruct (p x); simpl; [discriminate|reflexivity].
Qed.

Lemma forallb_rev {A} (p : A -> bool) (l : list A) :
  forallb p (rev l) = forallb p l.
Proof.
  induction l as [|x l IH]; simpl; [reflexivity|].
  rewrite forallb_app, IH. simpl. rewrite andb_true_r. apply andb_comm.
Qed.

Lemma trim_no_space (s : jsstring) :
  forallb (fun c => negb (isWhiteSpace c)) s = true -> trim s = s.
Proof.
  intros H. unfold trim, trimStart, trimEnd.
  rewrite (dropWhile_none _ s H), dropWhile_none.
  - apply rev_involutive.
  - now rewrite forallb_rev.
Qed.

Lemma wsRunsToUnderscore_no_space (s : jsstring) (inRun : bool) :
  forallb (fun c => negb (isWhiteSpace c)) s = true ->
  wsRunsToUnderscore inRun s = s.
Proof.
  revert inRun. induction s as [|c s IH]; intros inRun; simpl; [reflexivity|].
  destruct (isWhiteSpace c); simpl; [discriminate|].
  intros H. now rewrite IH.
Qed.

Lemma ident_no_space (s : jsstring) :
  forallb isIdentChar s = true ->
  forallb (fun c => negb (isWhiteSpace c)) s = true.
Proof.
  rewrite !forallb_forall. intros H c Hc.
  now rewrite (isIdentChar_not_space c (H c Hc)).
Qed.

Lemma filter_all {A} (p : A -> bool) (l : list A) :
  forallb p l = true -> List.filter p l = l.
Proof.
  induction l as [|x l IH]; simpl; [reflexivity|].
  destruct (p x); simpl; [|discriminate]. intros H. now rewrite IH.
Qed.

Lemma map_ident_id (s : jsstring) :
  forallb isIdentChar s = true ->
  List.map (fun c => if isIdentChar c then c else UNDERSCORE) s = s.
Proof.
  induction s as [|c s IH]; simpl; [reflexivity|].
  destruct (isIdentChar c); simpl; [|discriminate]. intros H. now rewrite IH.
Qed.

Lemma noDoubleUnderscore_cons (x y : N) (t : jsstring) :
  noDoubleUnderscore (x :: y :: t)
  = negb ((x =? UNDERSCORE) && (y =? UNDERSCORE)) && noDoubleUnderscore (y :: t).
Proof. reflexivity. Qed.

Lemma collapseUnderscores_id (s : jsstring) (inRun : bool) :
  noDoubleUnderscore s = true ->
  (inRun = true -> startsWithChar UNDERSCORE s = false) ->
  collapseUnderscores inRun s = s.
Proof.
  revert inRun. induction s as [|c s IH]; intros inRun Hs Hrun; [reflexivity|].
  cbn [collapseUnderscores]. cbn [startsWithChar] in Hrun.
  assert (Ht : noDoubleUnderscore s = true).
  { destruct s; [reflexivity|]. cbn [noDoubleUnderscore] in Hs.
    now apply andb_true_iff in Hs. }
  destruct (c =? UNDERSCORE) eqn:Ec.
  - destruct inRun; [now specialize (Hrun eq_refl)|].
    f_equal; [symmetry; now apply N.eqb_eq|].
    apply IH; [assumption|]. intros _.
    destruct s as [|y s]; [reflexivity|].
    cbn [noDoubleUnderscore] in Hs. cbn [startsWithChar].
    rewrite Ec in Hs. destruct (y =? UNDERSCORE); [discriminate|reflexivity].
  - f_equal. apply IH; [assumption|discriminate].
Qed.

(** C7, as stated, fails: on [a-b] the table name keeps an underscore for
    the dash and the header name drops the dash. *)
Lemma sanitizers_differ :
  ~ (forall (s : jsstring) (i : nat),
        sanitizeTableName s = sanitizeHeader s i).
Proof.
  intros H. specialize (H (js "a-b") 0%nat). vm_compute in H. discriminate H.
Qed.

(** What else separates the two sanitizers: white space at either end (the
    header is trimmed, the table name is not), adjacent underscores (only
    the table name collapses them) and the empty name (only the header gets
    [col_<index>]). *)
Lemma sanitizers_differ_elsewhere :
  sanitizeTableName (js " a") <> sanitizeHeader (js " a") 0
  /\ sanitizeTableName (js "a ") <> sanitizeHeader (js "a ") 0
  /\ sanitizeTableName (js "a__b") <> sanitizeHeader (js "a__b") 0
  /\ sanitizeTableName (js "a _b") <> sanitizeHeader (js "a _b") 0
  /\ sanitizeTableName [] <> sanitizeHeader [] 0.
Proof. repeat split; vm_compute; discriminate. Qed.

Lemma wsRunsToUnderscore_ident (s : jsstring) (inRun : bool) :
  forallb isNameChar s = true ->
  forallb isIdentChar (wsRunsToUnderscore inRun s) = true.
Proof.
  revert inRun. induction s as [|c s IH]; intros inRun; [reflexivity|].
  cbn [forallb wsRunsToUnderscore]. intros H.
  apply andb_true_iff in H. destruct H as [Hc Hs].
  destruct (isWhiteSpace c) eqn:Ew.
  - destruct inRun; [now apply IH|]. cbn [forallb]. now rewrite IH.
  - cbn [forallb]. unfold isNameChar in Hc. rewrite Ew, orb_false_r in Hc.
    now rewrite Hc, IH.
Qed.

Lemma wsRunsToUnderscore_head (s : jsstring) :
  startsWithDigit (wsRunsToUnderscore false s) = startsWithDigit s
  /\ (s <> [] -> wsRunsToUnderscore false s <> []).
Proof.
  destruct s as [|c s]; [now split|]. cbn [wsRunsToUnderscore startsWithDigit].
  destruct (isWhiteSpace c) eqn:Ew; [|now split].
  split; [|discriminate]. cbn [startsWithDigit].
  destruct (isDigit c) eqn:Ed; [|reflexivity].
  assert (Hn : isWhiteSpace c = false).
  { apply isIdentChar_not_space. unfold isIdentChar. now rewrite Ed, orb_true_r. }
  congruence.
Qed.

(** C7, amended: the two sanitizers agree on every non-empty name made of
    letters, digits, underscores and white space that has no white space at
    either end and no underscore next to another underscore or to white
    space, that is, whose white-space runs turned into underscores leave no
    two adjacent underscores.  Both return the name with every white-space
    run turned into one underscore, behind an underscore when it starts
    with a digit. *)
Theorem sanitizers_agree_on_clean_names (s : jsstring) (i : nat) :
  s <> [] -> forallb isNameChar s = true -> trim s = s ->
  noDoubleUnderscore (wsRunsToUnderscore false s) = true ->
  sanitizeTableName s = sanitizeHeader s i
  /\ sanitizeHeader s i
     = (if startsWithDigit s then UNDERSCORE :: wsRunsToUnderscore false s
        else wsRunsToUnderscore false s).
Proof.
  intros Hne Hch Htrim Hnd.
  pose proof (wsRunsToUnderscore_ident s false Hch) as Hid.
  destruct (wsRunsToUnderscore_head s) as [Hhead Hune].
  specialize (Hune Hne).
  set (u := wsRunsToUnderscore false s) in *.
  assert (Hh : sanitizeHeader s i
               = if startsWithDigit s then UNDERSCORE :: u else u).
  { unfold sanitizeHeader. rewrite Htrim. fold u.
    rewrite (filter_all _ u Hid), <- Hhead.
    destruct u; [congruence|reflexivity]. }
  split; [|exact Hh].
  rewrite Hh. unfold sanitizeTableName. fold u.
  rewrite (map_ident_id u Hid), Hhead.
  destruct (startsWithDigit s) eqn:Ed.
  - apply collapseUnderscores_id; [|discriminate].
    destruct u as [|c u']; [congruence|].
    rewrite noDoubleUnderscore_cons, Hnd, andb_true_r.
    cbn [startsWithDigit] in Hhead. apply isDigit_bounds in Hhead.
    destruct (N.eqb_spec c UNDERSCORE) as [->|_];
      [unfold UNDERSCORE in *; lia|].
    now rewrite andb_false_r.
  - apply collapseUnderscores_id; [assumption|discriminate].
Qed.

Lemma sanitizers_agree_on_clean_names_witness :
  sanitizeTableName (js "2024 Student   Marks_1")
    = sanitizeHeader (js "2024 Student   Marks_1") 0
  /\ sanitizeHeader (js "2024 Student   Marks_1") 0
     = js "_2024_Student_Marks_1".
Proof.
  apply (sanitizers_agree_on_clean_names (js "2024 Student   Marks_1") 0);
    [discriminate|reflexivity|reflexivity|reflexivity].
Defined.

(** *** Dates and CALC_AGE *)

(** [YearFromDay d] is a year that contains day [d]. *)
Lemma YearFromDay_spec (d : Z) :
  (DayFromYear (YearFromDay d) <= d < DayFromYear (YearFromDay d + 1))%Z.
Proof.
  unfold YearFromDay.
  destruct (Z.ltb_spec d (DayFromYear (1970 + d * 10000 / 3652425))) as [H1|H1].
  - revert H1. unfold DayFromYear. intros H1. Z.div_mod_to_equations. lia.
  - destruct (Z.leb_spec (DayFromYear (1970 + d * 10000 / 3652425 + 1)) d)
      as [H2|H2].
    + revert H1 H2. unfold DayFromYear. intros H1 H2.
      Z.div_mod_to_equations. lia.
    + lia.
Qed.

Lemma DayFromYear_mono (y y' : Z) :
  (y <= y')%Z -> (DayFromYear y <= DayFromYear y')%Z.
Proof. unfold DayFromYear. intros H. Z.div_mod_to_equations. lia. Qed.

Lemma DayFromYear_strict (y y' : Z) :
  (y < y')%Z -> (DayFromYear y < DayFromYear y')%Z.
Proof. unfold DayFromYear. intros H. Z.div_mod_to_equations. lia. Qed.

(** The year of a day is the only year that contains it. *)
Lemma YearFromDay_unique (d y : Z) :
  (DayFromYear y <= d < DayFromYear (y + 1))%Z -> YearFromDay d = y.
Proof.
  intros [Hlo Hhi]. pose proof (YearFromDay_spec d) as [Slo Shi].
  destruct (Z.lt_trichotomy (YearFromDay d) y) as [Hlt|[Heq|Hgt]];
    [|assumption|].
  - pose proof (DayFromYear_mono (YearFromDay d + 1) y ltac:(lia)). lia.
  - pose proof (DayFromYear_mono (y + 1) (YearFromDay d) ltac:(lia)). lia.
Qed.

Lemma Day_sign (t : Z) :
  ((0 <= t -> 0 <= Day t) /\ (t < 0 -> Day t < 0))%Z.
Proof. unfold Day, msPerDay. split; intros H; Z.div_mod_to_equations; lia. Qed.

Lemma YearFromTime_sign (t : Z) :
  ((0 <= t -> 1970 <= YearFromTime t) /\ (t < 0 -> YearFromTime t <= 1969))%Z.
Proof.
  unfold YearFromTime.
  pose proof (YearFromDay_spec (Day t)) as [Hlo Hhi].
  pose proof (Day_sign t) as [Dpos Dneg].
  assert (H0 : DayFromYear 1970 = 0%Z) by reflexivity.
  split; intros Ht.
  - specialize (Dpos Ht).
    destruct (Z.le_gt_cases 1970 (YearFromDay (Day t))) as [|Hy]; [assumption|].
    pose proof (DayFromYear_mono (YearFromDay (Day t) + 1) 1970 ltac:(lia)). lia.
  - specialize (Dneg Ht).
    destruct (Z.le_gt_cases (YearFromDay (Day t)) 1969) as [|Hy]; [assumption|].
    pose proof (DayFromYear_mono 1970 (YearFromDay (Day t)) ltac:(lia)). lia.
Qed.

(** C10, as stated, fails: the earliest date of ECMAScript is a valid date,
    but its distance from any time after the epoch is not a time value, and
    [CALC_AGE] returns [NaN] for it, not a number of years. *)
Lemma CALC_AGE_NaN_beyond_time_range :
  let rt := mkRuntime (fun _ => Some (-8640000000000000)%Z) 1793491200000%Z in
  newDateFromString rt (js "-271821-04-20T00:00:00.000Z")
    = Some (-8640000000000000)%Z
  /\ CALC_AGE rt (Some (js "-271821-04-20T00:00:00.000Z")) = JNumber NaN.
Proof. split; reflexivity. Qed.

(** C10, amended: [CALC_AGE] returns [null] for an absent or empty input and
    for a string that is not a date.  For a date [dob] whose distance from
    now is a time value (at most 8.64e15 ms) it returns the whole number
    [|YearFromTime (now - dob) - 1970|], which is at least 1 when [dob] is
    in the future. *)
Theorem CALC_AGE_years (rt : Runtime) :
  CALC_AGE rt None = JNull
  /\ CALC_AGE rt (Some []) = JNull
  /\ (forall s, newDateFromString rt s = None -> CALC_AGE rt (Some s) = JNull)
  /\ (forall s dob,
        s <> [] -> newDateFromString rt s = Some dob ->
        (Z.abs (dateNow rt - dob) <= maxTime)%Z ->
        let age := Z.abs (YearFromTime (dateNow rt - dob) - 1970) in
        CALC_AGE rt (Some s) = JNumber (Num (inject_Z age))
        /\ (dateNow rt < dob -> 1 <= age)%Z
        /\ (dob <= dateNow rt -> age = YearFromTime (dateNow rt - dob) - 1970)%Z).
Proof.
  split; [reflexivity|]. split; [reflexivity|]. split.
  - intros s H. destruct s; [reflexivity|]. cbn [CALC_AGE]. now rewrite H.
  - intros s dob Hs Hd Hr age. destruct s as [|c s]; [congruence|].
    cbn [CALC_AGE]. rewrite Hd. unfold TimeClip.
    destruct (Z.leb_spec (Z.abs (dateNow rt - dob)) maxTime) as [_|Hc]; [|lia].
    split; [reflexivity|].
    pose proof (YearFromTime_sign (dateNow rt - dob)) as [Hpos Hneg].
    subst age. split; intros H; lia.
Qed.

Lemma CALC_AGE_years_witness :
  let rt := mkRuntime (fun _ => Some 1063756800000%Z) 1793491200000%Z in
  CALC_AGE rt (Some (js "2003-09-17")) = JNumber (Num 23).
Proof.
  intros rt.
  destruct (CALC_AGE_years rt) as (_ & _ & _ & H).
  destruct (H (js "2003-09-17") 1063756800000%Z) as (E & _ & _);
    [discriminate|reflexivity|vm_compute; discriminate|].
  exact E.
Defined.

(** *** loadTableFromCSV *)

Lemma collapseUnderscores_shape (s : jsstring) (inRun : bool) :
  noDoubleUnderscore (collapseUnderscores inRun s) = true
  /\ (inRun = true ->
      startsWithChar UNDERSCORE (collapseUnderscores inRun s) = false).
Proof.
  revert inRun. induction s as [|c s IH]; intros inRun; [now split|].
  cbn [collapseUnderscores].
  destruct (c =? UNDERSCORE) eqn:Ec.
  - destruct inRun; [apply IH|]. destruct (IH true) as [Hn Hs].
    split; [|discriminate].
    destruct (collapseUnderscores true s) as [|y t] eqn:E; [reflexivity|].
    rewrite noDoubleUnderscore_cons, Hn, andb_true_r.
    specialize (Hs eq_refl). cbn [startsWithChar] in Hs. rewrite Hs.
    now rewrite andb_false_r.
  - destruct (IH false) as [Hn _]. split.
    + destruct (collapseUnderscores false s) as [|y t] eqn:E; [reflexivity|].
      now rewrite noDoubleUnderscore_cons, Ec, Hn.
    + intros _. cbn [startsWithChar]. exact Ec.
Qed.

Lemma collapseUnderscores_incl (s : jsstring) (inRun : bool) (x : N) :
  In x (collapseUnderscores inRun s) -> In x s.
Proof.
  revert inRun. induction s as [|c s IH]; intros inRun; [tauto|].
  cbn [collapseUnderscores].
  destruct (c =? UNDERSCORE) eqn:Ec.
  - destruct inRun.
    + intros H. right. now apply IH in H.
    + intros [<-|H]; [left; now apply N.eqb_eq|right; now apply IH in H].
  - intros [<-|H]; [now left|right; now apply IH in H].
Qed.

Lemma collapseUnderscores_head (s : jsstring) :
  startsWithDigit (collapseUnderscores false s) = startsWithDigit s.
Proof.
  destruct s as [|c s]; [reflexivity|]. cbn [collapseUnderscores].
  destruct (N.eqb_spec c UNDERSCORE) as [->|_]; reflexivity.
Qed.

Lemma sanitizeTableName_fixed (n : jsstring) :
  sanitizeTableName (sanitizeTableName n) = sanitizeTableName n.
Proof.
  pose (m := List.map (fun c => if isIdentChar c then c else UNDERSCORE)
               (wsRunsToUnderscore false n)).
  pose (p := if startsWithDigit m then UNDERSCORE :: m else m).
  change (sanitizeTableName n) with (collapseUnderscores false p).
  assert (Hm : forallb isIdentChar m = true).
  { subst m. rewrite forallb_forall. intros x Hx. apply in_map_iff in Hx.
    destruct Hx as (c & <- & _). now destruct (isIdentChar c) eqn:E. }
  assert (Hp : forallb isIdentChar p = true /\ startsWithDigit p = false).
  { subst p. destruct (startsWithDigit m) eqn:E; [|now split].
    split; [|reflexivity]. cbn [forallb]. now rewrite Hm. }
  destruct Hp as [Hpi Hpd].
  assert (Hid : forallb isIdentChar (collapseUnderscores false p) = true).
  { rewrite forallb_forall in *. intros x Hx.
    now apply Hpi, (collapseUnderscores_incl p false). }
  destruct (collapseUnderscores_shape p false) as [Hnd _].
  unfold sanitizeTableName at 1.
  rewrite (wsRunsToUnderscore_no_space _ false (ident_no_space _ Hid)),
    (map_ident_id _ Hid), collapseUnderscores_head, Hpd.
  apply collapseUnderscores_id; [exact Hnd|discriminate].
Qed.

Lemma insertData_registered (eng : Engine) (n : jsstring) (rows : list props)
    (db : Alasql) (ts : gmap jsstring Table) :
  tables db = Some ts -> is_Some (ts !! n) ->
  insertData eng n rows db
  = Returned JUndefined
      (mkAlasql (Some (<[n := mkTable (List.map JObject rows)]> ts))
         (fnCALC_AGE db)).
Proof.
  intros Ht [t Hn]. unfold insertData. now rewrite Ht, Hn.
Qed.

(** What a load that succeeds has done, for an engine whose [CREATE TABLE]
    registers the table: the schema counts the rows parsed from this file
    and the registry holds exactly these rows under the sanitized name. *)
Lemma loadTableFromCSV_ok (eng : Engine) (rt : Runtime)
    (tableName0 csvContent : jsstring) (w w' : World) (schema : TableSchema) :
  registersCreatedTables eng ->
  loadTableFromCSV eng rt tableName0 csvContent w = Ok schema w' ->
  let rows := parseCSV rt (stripBOM csvContent) in
  tableName schema = sanitizeTableName tableName0
  /\ rowCount schema = length rows
  /\ sampleData schema = firstn 3 rows
  /\ rows <> []
  /\ exists db ts, w' = Some db /\ tables db = Some ts
       /\ ts !! sanitizeTableName tableName0
          = Some (mkTable (List.map JObject rows)).
Proof.
  intros Hreg. unfold loadTableFromCSV.
  destruct (getDb rt w) as [db0 w0|e0 w0]; [|discriminate].
  destruct (parseCSV rt (stripBOM csvContent)) as [|firstRow rest] eqn:Erows;
    [discriminate|].
  destruct (eng (js "DROP TABLE IF EXISTS " ++ sanitizeTableName tableName0)
              None db0) as [r1 db1|e1 db1]; [|discriminate].
  destruct (eng (js "CREATE TABLE " ++ sanitizeTableName tableName0) None db1)
    as [r2 db2|e2 db2] eqn:Ecreate; [|discriminate].
  destruct (Hreg _ _ _ _ (sanitizeTableName_fixed tableName0) Ecreate)
    as (ts & Hts & Hsome).
  rewrite (insertData_registered eng _ _ db2 ts Hts Hsome).
  intros H. injection H as <- <-. cbn.
  repeat split; [discriminate|].
  eexists _, _. split; [reflexivity|]. split; [reflexivity|].
  apply lookup_insert_eq.
Qed.

(** C8: when two loads under names with the same sanitized form both
    succeed, the second one replaces the table: its row count is the number
    of rows of the second file and the registered table holds the rows of
    the second file alone. *)
Theorem reload_replaces_table (eng : Engine) (rt : Runtime)
    (name1 name2 csv1 csv2 : jsstring) (w w1 w2 : World)
    (schema1 schema2 : TableSchema) :
  registersCreatedTables eng ->
  sanitizeTableName name1 = sanitizeTableName name2 ->
  loadTableFromCSV eng rt name1 csv1 w = Ok schema1 w1 ->
  loadTableFromCSV eng rt name2 csv2 w1 = Ok schema2 w2 ->
  let rows2 := parseCSV rt (stripBOM csv2) in
  tableName schema2 = tableName schema1
  /\ rowCount schema2 = length rows2
  /\ exists db ts, w2 = Some db /\ tables db = Some ts
       /\ ts !! tableName schema1 = Some (mkTable (List.map JObject rows2)).
Proof.
  intros Hreg Hname H1 H2 rows2.
  destruct (loadTableFromCSV_ok eng rt name1 csv1 w w1 schema1 Hreg H1)
    as (Hn1 & _).
  destruct (loadTableFromCSV_ok eng rt name2 csv2 w1 w2 schema2 Hreg H2)
    as (Hn2 & Hc2 & _ & _ & db & ts & Hw & Ht & Hl).
  split; [congruence|]. split; [exact Hc2|].
  exists db, ts. split; [exact Hw|]. split; [exact Ht|].
  rewrite Hn1, Hname. exact Hl.
Qed.

Lemma miniEngine_registers : registersCreatedTables miniEngine.
Proof.
  intros n db r db' _ H. unfold miniEngine in H.
  assert (Hd : stripPrefix (js "DROP TABLE IF EXISTS ") (js "CREATE TABLE " ++ n)
               = None) by reflexivity.
  assert (Hc : stripPrefix (js "CREATE TABLE ") (js "CREATE TABLE " ++ n)
               = Some n).
  { vm_compute. destruct n; reflexivity. }
  rewrite Hd, Hc in H.
  destruct (default ∅ (tables db) !! n) eqn:E; inversion H; subst; cbn.
  eexists. split; [reflexivity|]. rewrite lookup_insert_eq. now eexists.
Qed.

Lemma reload_replaces_table_witness :
  let csv1 := js "n" ++ [LF] ++ js "1" ++ [LF] ++ js "2" in
  let csv2 := js "n" ++ [LF] ++ js "3" in
  match loadTableFromCSV miniEngine plainRuntime (js "my table") csv1
          (Some freshDb) with
  | Ok schema1 w1 =>
      match loadTableFromCSV miniEngine plainRuntime (js "my_table") csv2 w1 with
      | Ok schema2 w2 =>
          rowCount schema1 = 2%nat /\ rowCount schema2 = 1%nat
          /\ tableName schema2 = js "my_table"
      | Err _ _ => False
      end
  | Err _ _ => False
  end.
Proof.
  intros csv1 csv2.
  destruct (loadTableFromCSV miniEngine plainRuntime (js "my table") csv1
              (Some freshDb)) as [schema1 w1|e w1] eqn:E1;
    [|vm_compute in E1; discriminate E1].
  pose proof E1 as E1'. vm_compute in E1'. injection E1' as Hs Hw.
  destruct (loadTableFromCSV miniEngine plainRuntime (js "my_table") csv2 w1)
    as [schema2 w2|e w2] eqn:E2;
    [|rewrite <- Hw in E2; vm_compute in E2; discriminate E2].
  destruct (reload_replaces_table miniEngine plainRuntime (js "my table")
              (js "my_table") csv1 csv2 (Some freshDb) w1 w2 schema1 schema2
              miniEngine_registers eq_refl E1 E2) as (Hn & Hc & _).
  split; [now rewrite <- Hs|]. split; [exact Hc|].
  rewrite Hn, <- Hs. reflexivity.
Defined.

(** *** parseCSV: the keys of a row *)

(** C6: for the header line [__proto__,a] the sanitized headers are
    [__proto__] and [a], but the row of the data line [1,2] has the single
    key [a]: the assignment to the key [__proto__] reaches the prototype
    setter and creates no property. *)
Theorem parseCSV_proto_header_lost (rt : Runtime) :
  let text := js "__proto__,a" ++ [LF] ++ js "1,2" in
  csvHeaders text = [js "__proto__"; js "a"]
  /\ parseCSV rt text = [[(js "a", JNumber (Num 2))]]
  /\ List.map keys (parseCSV rt text) = [[js "a"]].
Proof. repeat split; vm_compute; reflexivity. Qed.

Lemma parseCSVLine_no_quote_witness :
  ~ In QUOTE (js "a,b").
Proof.
  apply (parseCSVLine_no_quote ([QUOTE] ++ js "a,b" ++ [QUOTE]) (js "a,b")).
  vm_compute. now left.
Defined.

(** *** Decimal strings *)

Lemma digitsValue_from (ds : jsstring) (a : Z) :
  (fold_left (fun acc d => 10 * acc + digitVal d) ds a
   = a * 10 ^ Z.of_nat (length ds) + digitsValue ds)%Z.
Proof.
  unfold digitsValue. revert a.
  induction ds as [|d ds IH]; intros a; cbn [fold_left length].
  - change (10 ^ Z.of_nat 0)%Z with 1%Z. lia.
  - rewrite IH, (IH (10 * 0 + digitVal d)%Z).
    rewrite Nat2Z.inj_succ, Z.pow_succ_r by lia. ring.
Qed.

Lemma digitsValue_cons (d : N) (ds : jsstring) :
  (digitsValue (d :: ds)
   = digitVal d * 10 ^ Z.of_nat (length ds) + digitsValue ds)%Z.
Proof.
  unfold digitsValue at 1. cbn [fold_left]. rewrite digitsValue_from. ring.
Qed.

Lemma digitsFuel_value (fuel : nat) (n : N) (acc : jsstring) :
  n < 2 ^ N.of_nat fuel -> (1 <= fuel)%nat ->
  (digitsValue (digitsFuel fuel n acc)
   = Z.of_N n * 10 ^ Z.of_nat (length acc) + digitsValue acc)%Z.
Proof.
  revert n acc. induction fuel as [|f IH]; intros n acc Hn Hf; [lia|].
  cbn [digitsFuel].
  assert (Hd : digitVal (48 + n mod 10) = Z.of_N (n mod 10)).
  { unfold digitVal. lia. }
  pose proof (N.mod_lt n 10 ltac:(lia)) as Hmod.
  pose proof (N.div_mod n 10 ltac:(lia)) as Hdm.
  destruct (N.ltb_spec n 10) as [Hlt|Hge].
  - rewrite digitsValue_cons, Hd, N.mod_small by assumption. reflexivity.
  - assert (Hf' : (1 <= f)%nat).
    { destruct f; [|lia]. change (2 ^ N.of_nat 1) with 2 in Hn. lia. }
    assert (Hn' : n / 10 < 2 ^ N.of_nat f).
    { rewrite Nat2N.inj_succ, N.pow_succ_r' in Hn.
      apply N.Div0.div_lt_upper_bound; lia. }
    rewrite (IH (n / 10) _ Hn' Hf'), digitsValue_cons, Hd.
    cbn [length]. rewrite Nat2Z.inj_succ, Z.pow_succ_r by lia.
    rewrite Hdm at 3. rewrite N2Z.inj_add, N2Z.inj_mul. change (Z.of_N 10) with 10%Z.
    ring.
Qed.

(** Reading back the decimal string of a number gives the number. *)
Lemma digitsValue_natToString (n : N) :
  digitsValue (natToString n) = Z.of_N n.
Proof.
  unfold natToString. rewrite digitsFuel_value; cbn [length]; [| |lia].
  - change (digitsValue []) with 0%Z. change (10 ^ Z.of_nat 0)%Z with 1%Z. lia.
  - rewrite Nat2N.inj_succ, N2Nat.id.
    destruct n as [|p]; [reflexivity|].
    apply N.log2_spec. lia.
Qed.

Lemma natToString_inj (m n : N) : natToString m = natToString n -> m = n.
Proof.
  intros H. apply N2Z.inj.
  now rewrite <- (digitsValue_natToString m), <- (digitsValue_natToString n), H.
Qed.

Lemma isDigit_mod10 (n : N) : isDigit (48 + n mod 10) = true.
Proof.
  unfold isDigit. pose proof (N.mod_lt n 10 ltac:(lia)) as Hm.
  revert Hm. generalize (n mod 10). intros m Hm.
  apply andb_true_iff; split; apply N.leb_le; lia.
Qed.

Lemma digitsFuel_digits (fuel : nat) (n : N) (acc : jsstring) :
  forallb isDigit acc = true -> forallb isDigit (digitsFuel fuel n acc) = true.
Proof.
  revert n acc. induction fuel as [|f IH]; intros n acc Hacc; [exact Hacc|].
  cbn [digitsFuel].
  assert (Hd : forallb isDigit ((48 + n mod 10) :: acc) = true).
  { cbn [forallb]. now rewrite Hacc, andb_true_r, isDigit_mod10. }
  destruct (n <? 10); [exact Hd|]. now apply IH.
Qed.

Lemma natToString_digits (n : N) : forallb isDigit (natToString n) = true.
Proof. now apply digitsFuel_digits. Qed.

(** *** Unique header names *)

Lemma numbered_inj (clean : jsstring) (j k : N) :
  numbered clean j = numbered clean k -> j = k.
Proof.
  unfold numbered. intros H.
  apply app_inv_head in H. injection H as H. now apply natToString_inj.
Qed.

Lemma numbered_neq_clean (clean : jsstring) (k : N) : numbered clean k <> clean.
Proof.
  unfold numbered. intros H. apply (f_equal (@length N)) in H.
  rewrite length_app in H. cbn [length app] in H. lia.
Qed.

(** The loop of [uniqueName], with the names it has already found in
    [seenHeaders]: it cannot run out of fuel before it finds a free name. *)
Lemma uniqueLoop_fresh (fuel : nat) (clean : jsstring)
    (seenHeaders : gset jsstring) (cur : jsstring) (counter : N)
    (tried : list jsstring) :
  NoDup tried ->
  (forall x, x ∈ tried -> x ∈ seenHeaders) ->
  (forall x, x ∈ tried -> x <> cur /\ forall k, counter <= k -> x <> numbered clean k) ->
  (forall k, counter <= k -> cur <> numbered clean k) ->
  (size seenHeaders < length tried + fuel)%nat ->
  uniqueLoop fuel clean seenHeaders cur counter ∉ seenHeaders.
Proof.
  revert cur counter tried.
  induction fuel as [|f IH]; intros cur counter tried Hnd Hseen Hold Hcur Hsize.
  - exfalso.
    assert (Hle : (size (list_to_set tried : gset jsstring) <= size seenHeaders)%nat).
    { apply subseteq_size. intros x Hx. apply elem_of_list_to_set in Hx. auto. }
    rewrite size_list_to_set in Hle by assumption. lia.
  - cbn [uniqueLoop]. destruct (decide (cur ∈ seenHeaders)) as [Hin|Hout];
      [|exact Hout].
    apply (IH _ _ (cur :: tried)).
    + apply NoDup_cons. split; [|assumption].
      intros Hx. now destruct (Hold _ Hx).
    + intros x Hx. apply elem_of_cons in Hx. destruct Hx as [->|Hx]; auto.
    + intros x Hx. apply elem_of_cons in Hx. destruct Hx as [->|Hx].
      * split; [apply Hcur; lia|]. intros k Hk. apply Hcur. lia.
      * destruct (Hold _ Hx) as [_ Hk]. split; [apply Hk; lia|].
        intros k Hk'. apply Hk. lia.
    + intros k Hk E. apply numbered_inj in E. lia.
    + cbn [length]. lia.
Qed.

(** The name given to a header is not one of the names given before. *)
Lemma uniqueName_fresh (clean : jsstring) (seenHeaders : gset jsstring) :
  uniqueName clean seenHeaders ∉ seenHeaders.
Proof.
  unfold uniqueName. apply (uniqueLoop_fresh _ _ _ _ _ []).
  - constructor.
  - intros x Hx. now apply elem_of_nil in Hx.
  - intros x Hx. now apply elem_of_nil in Hx.
  - intros k _ E. symmetry in E. now apply numbered_neq_clean in E.
  - cbn [length]. lia.
Qed.

(** The name given to a header is the sanitized name or a numbered one. *)
Lemma uniqueLoop_shape (fuel : nat) (clean : jsstring)
    (seenHeaders : gset jsstring) (cur : jsstring) (counter : N) :
  let u := uniqueLoop fuel clean seenHeaders cur counter in
  u = cur \/ exists k, u = numbered clean k.
Proof.
  revert cur counter. induction fuel as [|f IH]; intros cur counter;
    cbn [uniqueLoop]; [now left|].
  destruct (decide (cur ∈ seenHeaders)); [|now left].
  right. destruct (IH (clean ++ [UNDERSCORE] ++ natToString counter) (counter + 1))
    as [E|[k E]]; [exists counter|exists k]; exact E.
Qed.

Lemma sanitizeHeaders_fresh (rawHeaders : list jsstring) (i : nat)
    (seenHeaders : gset jsstring) :
  NoDup (sanitizeHeaders rawHeaders i seenHeaders)
  /\ forall x, x ∈ sanitizeHeaders rawHeaders i seenHeaders -> x ∉ seenHeaders.
Proof.
  revert i seenHeaders.
  induction rawHeaders as [|h r IH]; intros i seenHeaders; cbn [sanitizeHeaders].
  - split; [constructor|]. intros x Hx. now apply elem_of_nil in Hx.
  - set (u := uniqueName (sanitizeHeader h i) seenHeaders).
    destruct (IH (S i) ({[u]} ∪ seenHeaders)) as [Hnd Hout].
    split.
    + apply NoDup_cons. split; [|assumption].
      intros Hx. apply (Hout _ Hx).
      apply elem_of_union. left. now apply elem_of_singleton.
    + intros x Hx. apply elem_of_cons in Hx. destruct Hx as [->|Hx].
      * apply uniqueName_fresh.
      * intros Hs. apply (Hout _ Hx). apply elem_of_union. now right.
Qed.

(** The headers of a CSV text are pairwise different. *)
Lemma csvHeaders_NoDup (text : jsstring) : NoDup (csvHeaders text).
Proof.
  unfold csvHeaders. destruct (csvLines text) as [|headerLine rest];
    [constructor|].
  apply sanitizeHeaders_fresh.
Qed.

(** *** Rows *)

Lemma hasProp_false (o : props) (k : jsstring) :
  ~ In k (keys o) -> hasProp o k = false.
Proof.
  unfold hasProp, keys. induction o as [|[k' v] o IH]; intros H; [reflexivity|].
  cbn [existsb List.map fst In] in *. rewrite IH by tauto.
  rewrite orb_false_r. apply str_eqb_false. tauto.
Qed.

Lemma keys_app (a b : props) : keys (a ++ b) = keys a ++ keys b.
Proof. apply List.map_app. Qed.




(** Every row of [parseCSV] comes from one of the kept lines after the
    first, through [parseRow] with the headers of the text. *)
Lemma parseCSV_rows (rt : Runtime) (text : jsstring) (row : props) :
  In row (parseCSV rt text) ->
  exists headerLine dataLines line,
    csvLines text = headerLine :: dataLines /\ In line dataLines
    /\ parseRow rt (csvHeaders text) line = Some row.
Proof.
  unfold parseCSV, csvHeaders.
  destruct (Nat.ltb (length (csvLines text)) 2); [intros []|].
  destruct (csvLines text) as [|headerLine dataLines]; [intros []|].
  intros H. apply list_elem_of_In, list_elem_of_omap in H.
  destruct H as (line & Hline & Hrow).
  exists headerLine, dataLines, line. split; [reflexivity|].
  split; [now apply list_elem_of_In|exact Hrow].
Qed.



(** *** More on parseCSVLine *)

Lemma quoteFree_cons (c : N) (s : jsstring) :
  quoteFree (c :: s) <-> c <> QUOTE /\ quoteFree s.
Proof. unfold quoteFree. cbn [In]. intuition congruence. Qed.

(** Inside a quoted span every unit but the quote goes to the field. *)
Lemma scanLine_in_quotes (s rest current : jsstring) (values : list jsstring) :
  quoteFree s ->
  scanLine (s ++ rest) current true values
  = scanLine rest (current ++ s) true values.
Proof.
  revert current. induction s as [|c s IH]; intros current Hs; cbn [app].
  - now rewrite app_nil_r.
  - apply quoteFree_cons in Hs. destruct Hs as [Hc Hs].
    cbn [scanLine]. apply N.eqb_neq in Hc. rewrite Hc, andb_false_r.
    rewrite IH by assumption. now rewrite <- app_assoc.
Qed.

(** X1: a quoted field is read without its quotes and with its commas: for
    every [s] without a double quote, the line [QUOTE s QUOTE] is the one
    field [s]. *)
Theorem parseCSVLine_quoted_field (s : jsstring) :
  quoteFree s -> parseCSVLine ([QUOTE] ++ s ++ [QUOTE]) = [s].
Proof.
  intros Hs. rewrite parseCSVLine_scanLine. cbn [app scanLine].
  change (QUOTE =? QUOTE) with true. cbn [negb].
  rewrite scanLine_in_quotes by assumption. reflexivity.
Qed.

Lemma parseCSVLine_quoted_field_witness :
  parseCSVLine ([QUOTE] ++ js "Amadeus Labs, Bengaluru" ++ [QUOTE])
  = [js "Amadeus Labs, Bengaluru"].
Proof.
  apply parseCSVLine_quoted_field.
  vm_compute. intros H. repeat (destruct H as [H|H]; [discriminate H|]).
  exact H.
Defined.

Lemma splitOn_nonempty (c : N) (s : jsstring) : splitOn c s <> [].
Proof.
  destruct s as [|x r]; cbn [splitOn]; [discriminate|].
  destruct (x =? c); [discriminate|]. destruct (splitOn c r); discriminate.
Qed.

Lemma scanLine_unquoted (line current : jsstring) (values : list jsstring) :
  quoteFree line ->
  scanLine line current false values
  = values ++ match splitOn COMMA line with
              | seg :: segs => (current ++ seg) :: segs
              | [] => [current]
              end.
Proof.
  revert current values.
  induction line as [|c line IH]; intros current values Hq.
  - cbn [scanLine splitOn]. now rewrite app_nil_r.
  - apply quoteFree_cons in Hq. destruct Hq as [Hc Hq].
    cbn [scanLine splitOn]. apply N.eqb_neq in Hc. rewrite Hc.
    cbn [negb]. rewrite andb_true_r.
    destruct (splitOn COMMA line) as [|seg segs] eqn:E;
      [now apply splitOn_nonempty in E|].
    destruct (c =? COMMA).
    + rewrite IH by assumption. rewrite <- app_assoc. cbn [app].
      now rewrite app_nil_r.
    + rewrite IH by assumption. now rewrite <- app_assoc.
Qed.

(** X2: on a line without a double quote the tokenizer is [split(',')]: the
    fields are the segments between the commas, white space included. *)
Theorem parseCSVLine_unquoted (line : jsstring) :
  quoteFree line -> parseCSVLine line = splitOn COMMA line.
Proof.
  intros Hq. rewrite parseCSVLine_scanLine, scanLine_unquoted by assumption.
  cbn [app]. destruct (splitOn COMMA line) as [|seg segs] eqn:E;
    [now apply splitOn_nonempty in E|]. reflexivity.
Qed.

Lemma parseCSVLine_unquoted_witness :
  parseCSVLine (js "1, AARYA ,,F") = [js "1"; js " AARYA "; []; js "F"].
Proof.
  rewrite parseCSVLine_unquoted; [reflexivity|].
  vm_compute. intros H. repeat (destruct H as [H|H]; [discriminate H|]).
  exact H.
Defined.

(** The tokenizer returns at least one field, for every line. *)
Lemma parseCSVLine_nonempty (line : jsstring) : parseCSVLine line <> [].
Proof.
  rewrite parseCSVLine_scanLine.
  assert (H : forall l cur q vals, scanLine l cur q vals <> []).
  { induction l as [|c l IH]; intros cur q vals; cbn [scanLine].
    - destruct vals; discriminate.
    - destruct (c =? QUOTE); [apply IH|].
      destruct ((c =? COMMA) && negb q); apply IH. }
  apply H.
Qed.

(** *** More on cell values *)

Lemma cellValue_isCellKind (rt : Runtime) (field : option jsstring) :
  isCellKind (cellValue rt field) = true.
Proof.
  destruct field as [raw|]; [|reflexivity]. unfold cellValue.
  destruct (negb (str_eqb (numericClean (trim raw)) [])
            && negb (isNaN (toNumber (numericClean (trim raw))))) eqn:E.
  - apply andb_true_iff in E. destruct E as [_ E].
    now destruct (looksLikePhone (trim raw)).
  - destruct (matchDayMonthName (trim raw)).
    + now destruct (newDateFromString rt (trim raw)).
    + now destruct (matchSlashDate (trim raw)).
Qed.

(** X4: whatever the field and the runtime, a cell holds [null], a string or
    a number other than [NaN]; it holds [null] exactly when the field is
    absent. *)
Theorem cellValue_kind (rt : Runtime) (field : option jsstring) :
  isCellKind (cellValue rt field) = true
  /\ (cellValue rt field = JNull <-> field = None).
Proof.
  split; [apply cellValue_isCellKind|].
  destruct field as [raw|]; [|now split].
  split; [|discriminate]. unfold cellValue.
  destruct (negb (str_eqb (numericClean (trim raw)) [])
            && negb (isNaN (toNumber (numericClean (trim raw))))).
  - destruct (looksLikePhone (trim raw)); discriminate.
  - destruct (matchDayMonthName (trim raw)).
    + destruct (newDateFromString rt (trim raw)); discriminate.
    + destruct (matchSlashDate (trim raw)); discriminate.
Qed.

Lemma takeWhile_dropWhile {A} (p : A -> bool) (l : list A) :
  takeWhile p l ++ dropWhile p l = l.
Proof.
  induction l as [|x l IH]; cbn [takeWhile dropWhile]; [reflexivity|].
  destruct (p x); cbn [app]; [now rewrite IH|reflexivity].
Qed.

Lemma takeWhile_forallb {A} (p : A -> bool) (l : list A) :
  forallb p (takeWhile p l) = true.
Proof.
  induction l as [|x l IH]; cbn [takeWhile]; [reflexivity|].
  destruct (p x) eqn:E; cbn [forallb]; [now rewrite E|reflexivity].
Qed.

Lemma takeWhile_all {A} (p : A -> bool) (l : list A) :
  forallb p l = true -> takeWhile p l = l /\ dropWhile p l = [].
Proof.
  induction l as [|x l IH]; cbn [forallb takeWhile dropWhile]; [now split|].
  destruct (p x); [|discriminate]. intros H. destruct (IH H) as [-> ->].
  now split.
Qed.

Lemma isDigit_range (c : N) : isDigit c = true <-> 48 <= c <= 57.
Proof. unfold isDigit. rewrite andb_true_iff, !N.leb_le. tauto. Qed.

Lemma isDigit_not_space (c : N) : isDigit c = true -> isWhiteSpace c = false.
Proof.
  intros H. apply isIdentChar_not_space. unfold isIdentChar.
  now rewrite H, orb_true_r.
Qed.

Lemma digits_no_space (d : jsstring) :
  forallb isDigit d = true ->
  forallb (fun c => negb (isWhiteSpace c)) d = true.
Proof.
  rewrite !forallb_forall. intros H c Hc.
  now rewrite (isDigit_not_space c (H c Hc)).
Qed.

(** [Number] reads a run of decimal digits as its decimal value. *)
Lemma toNumber_digits (d : jsstring) :
  d <> [] -> forallb isDigit d = true ->
  toNumber d = Num (inject_Z (digitsValue d)).
Proof.
  intros Hne Hd. unfold toNumber.
  rewrite (trim_no_space d (digits_no_space d Hd)).
  destruct d as [|c r]; [congruence|].
  assert (Hc : 48 <= c <= 57).
  { apply isDigit_range. cbn [forallb] in Hd. now apply andb_true_iff in Hd. }
  destruct (N.eqb_spec c PLUS) as [->|_]; [unfold PLUS in Hc; lia|].
  destruct (N.eqb_spec c DASH) as [->|_]; [unfold DASH in Hc; lia|].
  assert (Hinf : str_eqb (c :: r) (js "Infinity") = false).
  { apply str_eqb_false. intros H. vm_compute in H. injection H as H _. lia. }
  rewrite Hinf. unfold parseUnsignedDecimal.
  destruct (takeWhile_all isDigit (c :: r) Hd) as [-> ->].
  rewrite app_nil_r. cbn [parseExponent length].
  unfold scale10. change (0 - Z.of_nat 0)%Z with 0%Z. cbn [Z.leb Z.compare].
  change (10 ^ 0)%Z with 1%Z. now rewrite Z.mul_1_r.
Qed.

Lemma splitOn_head (c : N) (d rest : jsstring) :
  forallb (fun x => negb (x =? c)) d = true ->
  splitOn c (d ++ c :: rest) = d :: splitOn c rest.
Proof.
  induction d as [|x d IH]; cbn [forallb app splitOn]; intros H.
  - now rewrite N.eqb_refl.
  - apply andb_true_iff in H. destruct H as [Hx Hd].
    apply negb_true_iff in Hx. rewrite Hx, (IH Hd). reflexivity.
Qed.

(** The numeric-clean candidate of a value that starts with digits and a
    slash is the run of digits. *)
Lemma numericClean_digits_slash (val : jsstring) (rest : jsstring) :
  takeWhile isDigit val <> [] ->
  dropWhile isDigit val = SLASH :: rest ->
  numericClean val = takeWhile isDigit val.
Proof.
  intros Hne Hrest. unfold numericClean.
  pose proof (takeWhile_forallb isDigit val) as Hd.
  rewrite <- (takeWhile_dropWhile isDigit val) at 1. rewrite Hrest.
  set (d := takeWhile isDigit val) in *.
  rewrite List.filter_app, filter_all.
  - cbn [List.filter]. change (negb (SLASH =? PERCENT)) with true. cbn iota.
    rewrite splitOn_head.
    + cbn [hd]. apply trim_no_space, digits_no_space, Hd.
    + rewrite forallb_forall in *. intros x Hx.
      specialize (Hd x Hx). apply isDigit_range in Hd.
      apply negb_true_iff, N.eqb_neq. unfold SLASH. lia.
  - rewrite forallb_forall in *. intros x Hx.
    specialize (Hd x Hx). apply isDigit_range in Hd.
    apply negb_true_iff, N.eqb_neq. unfold PERCENT. lia.
Qed.

(** X3: the day/month/year branch of [parseCSV] is never taken: a value of the
    form D[D]/M[M]/YYYY is stored as the number of its day part, or kept
    unchanged when it has ten characters and starts with a digit from 6
    to 9. *)
Theorem cellValue_slash_date_never_normalized (rt : Runtime) (raw : jsstring) :
  matchSlashDate (trim raw) = true ->
  cellValue rt (Some raw)
  = if looksLikePhone (trim raw) then JString (trim raw)
    else JNumber (Num (inject_Z (digitsValue (takeWhile isDigit (trim raw))))).
Proof.
  intros Hm. unfold cellValue. set (val := trim raw) in *.
  unfold matchSlashDate in Hm.
  apply andb_true_iff in Hm. destruct Hm as [Hlen Hrest].
  assert (Hne : takeWhile isDigit val <> []).
  { intros E. rewrite E in Hlen. discriminate Hlen. }
  destruct (dropWhile isDigit val) as [|c rest] eqn:Edrop; [discriminate|].
  apply andb_true_iff in Hrest. destruct Hrest as [Hrest _].
  apply andb_true_iff in Hrest. destruct Hrest as [Hc _].
  apply N.eqb_eq in Hc. subst c.
  rewrite (numericClean_digits_slash val rest Hne Edrop).
  rewrite (toNumber_digits _ Hne (takeWhile_forallb isDigit val)).
  assert (E : str_eqb (takeWhile isDigit val) [] = false)
    by now apply str_eqb_false.
  rewrite E. reflexivity.
Qed.

Lemma cellValue_slash_date_never_normalized_witness :
  cellValue plainRuntime (Some (js " 25/12/1999 ")) = JNumber (Num 25).
Proof.
  exact (cellValue_slash_date_never_normalized plainRuntime (js " 25/12/1999 ")
           eq_refl).
Defined.

(** The date written by [toISOString] depends on the day of the time value
    only. *)
Lemma isoDate_Day (t t' : Z) : Day t = Day t' -> isoDate t = isoDate t'.
Proof.
  intros H.
  unfold isoDate, DateFromTime, MonthFromTime, DayWithinYear, InLeapYear,
    YearFromTime.
  now rewrite H.
Qed.

Lemma isAlpha_range (c : N) :
  isAlpha c = true <-> 65 <= c <= 90 \/ 97 <= c <= 122.
Proof.
  unfold isAlpha, isUpper, isLower.
  rewrite orb_true_iff, !andb_true_iff, !N.leb_le. tauto.
Qed.

(** A value of the form D[D]-Mon-YYYY is not a number for [parseCSV]: its
    numeric-clean candidate is the value itself, and [Number] rejects it. *)
Lemma dayMonthName_not_numeric (val : jsstring) :
  matchDayMonthName val = true ->
  numericClean val = val /\ val <> [] /\ toNumber val = NaN.
Proof.
  unfold matchDayMonthName. intros Hm.
  apply andb_true_iff in Hm. destruct Hm as [Hlen Hrest].
  pose proof (takeWhile_forallb isDigit val) as Hd.
  pose proof (takeWhile_dropWhile isDigit val) as Hsplit.
  destruct (dropWhile isDigit val) as [|s1 [|a [|b [|c [|s2 y]]]]] eqn:Edrop;
    try discriminate Hrest.
  rewrite !andb_true_iff in Hrest.
  destruct Hrest as [[[[[[[Hs1 Ha] Hb] Hc] Hs2] Hy] _] _].
  apply N.eqb_eq in Hs1, Hs2. subst s1 s2.
  apply isAlpha_range in Ha, Hb, Hc.
  remember (takeWhile isDigit val) as d eqn:Ed.
  assert (Hall : forall x, In x val ->
             (48 <= x <= 57 \/ x = 45 \/ 65 <= x <= 90 \/ 97 <= x <= 122)).
  { intros x Hx. rewrite <- Hsplit in Hx. apply in_app_or in Hx.
    rewrite forallb_forall in Hd, Hy.
    destruct Hx as [Hx|[<-|[<-|[<-|[<-|[<-|Hx]]]]]].
    - left. now apply isDigit_range, Hd.
    - right. now left.
    - tauto.
    - tauto.
    - tauto.
    - right. now left.
    - left. now apply isDigit_range, Hy. }
  assert (Hsp : forallb (fun c => negb (isWhiteSpace c)) val = true).
  { rewrite forallb_forall. intros x Hx. specialize (Hall x Hx).
    apply negb_true_iff. unfold isWhiteSpace.
    rewrite !orb_false_iff, !andb_false_iff, !N.leb_gt, !N.eqb_neq. lia. }
  assert (Hclean : numericClean val = val).
  { unfold numericClean. rewrite filter_all.
    - assert (Hs : splitOn SLASH val = [val]).
      { clear - Hall. induction val as [|x v IH]; [reflexivity|].
        cbn [splitOn]. destruct (N.eqb_spec x SLASH) as [->|_].
        - specialize (Hall SLASH ltac:(now left)). unfold SLASH in Hall. lia.
        - rewrite IH; [reflexivity|]. intros z Hz. apply Hall. now right. }
      rewrite Hs. cbn [hd]. now apply trim_no_space.
    - rewrite forallb_forall. intros x Hx. specialize (Hall x Hx).
      apply negb_true_iff, N.eqb_neq. unfold PERCENT. lia. }
  assert (Hdec : parseUnsignedDecimal val = None).
  { unfold parseUnsignedDecimal. rewrite <- Ed, Edrop.
    change (DASH =? DOT) with false. cbn iota.
    destruct (d ++ []); [reflexivity|].
    cbn [parseExponent]. change ((DASH =? 101) || (DASH =? 69)) with false.
    reflexivity. }
  (* the two shapes of the digits in front *)
  destruct d as [|x [|x' [|x'' d]]]; try discriminate Hlen;
    cbn [app] in Hsplit; subst val.
  - split; [exact Hclean|]. split; [discriminate|].
    assert (Hx : 48 <= x <= 57) by
      (apply isDigit_range; cbn [forallb] in Hd; now apply andb_true_iff in Hd).
    unfold toNumber. rewrite (trim_no_space _ Hsp).
    destruct (N.eqb_spec x PLUS) as [->|_]; [unfold PLUS in Hx; lia|].
    destruct (N.eqb_spec x DASH) as [->|_]; [unfold DASH in Hx; lia|].
    assert (Hinf : str_eqb (x :: DASH :: a :: b :: c :: DASH :: y) (js "Infinity")
                   = false).
    { apply str_eqb_false. intros H. vm_compute in H. injection H as H _. lia. }
    rewrite Hinf, Hdec. unfold parseNonDecimal.
    change ((DASH =? 120) || (DASH =? 88)) with false.
    change ((DASH =? 111) || (DASH =? 79)) with false.
    change ((DASH =? 98) || (DASH =? 66)) with false.
    cbn iota. now destruct (negb (x =? ZERO)).
  - split; [exact Hclean|]. split; [discriminate|].
    cbn [forallb] in Hd. rewrite !andb_true_iff in Hd.
    destruct Hd as (Hx & Hx' & _). apply isDigit_range in Hx, Hx'.
    unfold toNumber. rewrite (trim_no_space _ Hsp).
    destruct (N.eqb_spec x PLUS) as [->|_]; [unfold PLUS in Hx; lia|].
    destruct (N.eqb_spec x DASH) as [->|_]; [unfold DASH in Hx; lia|].
    assert (Hinf : str_eqb (x :: x' :: DASH :: a :: b :: c :: DASH :: y)
                     (js "Infinity") = false).
    { apply str_eqb_false. intros H. vm_compute in H. injection H as H _. lia. }
    rewrite Hinf, Hdec. unfold parseNonDecimal.
    assert (E1 : (x' =? 120) || (x' =? 88) = false).
    { rewrite orb_false_iff, !N.eqb_neq. lia. }
    assert (E2 : (x' =? 111) || (x' =? 79) = false).
    { rewrite orb_false_iff, !N.eqb_neq. lia. }
    assert (E3 : (x' =? 98) || (x' =? 66) = false).
    { rewrite orb_false_iff, !N.eqb_neq. lia. }
    rewrite E1, E2, E3. now destruct (negb (x =? ZERO)).
Qed.

(** X6: a value of the form D[D]-Mon-YYYY always reaches the date branch: it
    is stored as the UTC date of the time [Date.parse] gives it, and
    unchanged when [Date.parse] rejects it. *)
Theorem cellValue_day_month_name (rt : Runtime) (raw : jsstring) :
  matchDayMonthName (trim raw) = true ->
  cellValue rt (Some raw)
  = match newDateFromString rt (trim raw) with
    | Some t => JString (isoDate t)
    | None => JString (trim raw)
    end.
Proof.
  intros Hm. unfold cellValue.
  destruct (dayMonthName_not_numeric (trim raw) Hm) as (-> & _ & ->).
  cbn [isNaN negb]. rewrite andb_false_r. now rewrite Hm.
Qed.

Lemma cellValue_day_month_name_witness :
  cellValue (mkRuntime (fun _ => Some 1063756800000%Z) 0%Z)
    (Some (js "17-Sep-2003"))
  = JString (js "2003-09-17").
Proof.
  exact (cellValue_day_month_name (mkRuntime (fun _ => Some 1063756800000%Z) 0%Z)
           (js "17-Sep-2003") eq_refl).
Defined.

(** X7: a runtime that reads a D[D]-Mon-YYYY value as local midnight of day
    number [day], [offset] milliseconds east of Greenwich, makes [parseCSV]
    store the date of that day when the offset is zero or to the west (up to
    a day), and the date of the day before when the offset is to the east. *)
Theorem cellValue_date_shifts_east_of_utc (rt : Runtime) (raw : jsstring)
    (day offset : Z) :
  matchDayMonthName (trim raw) = true ->
  dateParse rt (trim raw) = Some (day * msPerDay - offset)%Z ->
  (Z.abs (day * msPerDay - offset) <= maxTime)%Z ->
  ((- msPerDay < offset <= 0)%Z ->
     cellValue rt (Some raw) = JString (isoDate (day * msPerDay)))
  /\ ((0 < offset <= msPerDay)%Z ->
     cellValue rt (Some raw) = JString (isoDate ((day - 1) * msPerDay))).
Proof.
  intros Hm Hp Hr.
  unfold cellValue.
  destruct (dayMonthName_not_numeric (trim raw) Hm) as (-> & _ & ->).
  cbn [isNaN negb]. rewrite andb_false_r, Hm.
  unfold newDateFromString, TimeClip. rewrite Hp.
  destruct (Z.leb_spec (Z.abs (day * msPerDay - offset)) maxTime) as [_|H]; [|lia].
  split; intros Ho; f_equal; apply isoDate_Day; unfold Day, msPerDay in *.
  - rewrite Z.div_mul by lia. symmetry. apply Z.div_unique with (r := (- offset)%Z); lia.
  - rewrite Z.div_mul by lia. symmetry.
    apply Z.div_unique with (r := (86400000 - offset)%Z); lia.
Qed.

Lemma cellValue_date_shifts_east_of_utc_witness :
  cellValue (mkRuntime (fun _ => Some (12312 * 86400000 - 19800000)%Z) 0%Z)
    (Some (js "17-Sep-2003"))
  = JString (js "2003-09-16").
Proof.
  refine (proj2 (cellValue_date_shifts_east_of_utc
                   (mkRuntime (fun _ => Some (12312 * 86400000 - 19800000)%Z) 0%Z)
                   (js "17-Sep-2003") 12312 19800000 eq_refl eq_refl _) _).
  - vm_compute. discriminate.
  - vm_compute. split; [reflexivity|discriminate].
Defined.

(** *** Sanitized names are identifiers *)

Lemma forallb_filter {A} (p : A -> bool) (l : list A) :
  forallb p (List.filter p l) = true.
Proof.
  induction l as [|x l IH]; cbn [List.filter]; [reflexivity|].
  destruct (p x) eqn:E; cbn [forallb]; [now rewrite E|exact IH].
Qed.

Lemma isDigit_isIdentChar (c : N) : isDigit c = true -> isIdentChar c = true.
Proof. intros H. unfold isIdentChar. now rewrite H, orb_true_r. Qed.

Lemma digits_ident (d : jsstring) :
  forallb isDigit d = true -> forallb isIdentChar d = true.
Proof.
  rewrite !forallb_forall. intros H c Hc. now apply isDigit_isIdentChar, H.
Qed.

Lemma isIdentifier_spec (s : jsstring) :
  isIdentifier s = true
  <-> s <> [] /\ forallb isIdentChar s = true /\ startsWithDigit s = false.
Proof.
  unfold isIdentifier.
  rewrite !andb_true_iff, !negb_true_iff, str_eqb_false. tauto.
Qed.

(** The name computed for a header is an identifier, whatever the header. *)
Lemma sanitizeHeader_identifier (h : jsstring) (i : nat) :
  isIdentifier (sanitizeHeader h i) = true.
Proof.
  unfold sanitizeHeader.
  pose proof (forallb_filter isIdentChar (wsRunsToUnderscore false (trim h)))
    as Hf.
  set (clean := List.filter isIdentChar (wsRunsToUnderscore false (trim h))) in *.
  set (clean' := match clean with
                 | [] => js "col_" ++ natToString (N.of_nat i)
                 | _ :: _ => clean
                 end).
  assert (H : clean' <> [] /\ forallb isIdentChar clean' = true).
  { subst clean'. destruct clean as [|c r]; [|split; [discriminate|exact Hf]].
    split; [discriminate|]. rewrite forallb_app.
    now rewrite (digits_ident _ (natToString_digits _)). }
  destruct H as [Hne Hid]. apply isIdentifier_spec.
  destruct (startsWithDigit clean') eqn:Ed.
  - split; [discriminate|]. split; [|reflexivity].
    cbn [forallb]. now rewrite Hid.
  - now repeat split.
Qed.

(** X8: header sanitization is idempotent: sanitizing a sanitized name, at any
    index, returns it unchanged. *)
Theorem sanitizeHeader_idempotent (h : jsstring) (i j : nat) :
  sanitizeHeader (sanitizeHeader h i) j = sanitizeHeader h i.
Proof.
  pose proof (sanitizeHeader_identifier h i) as H.
  apply isIdentifier_spec in H. destruct H as (Hne & Hid & Hd).
  pose proof (ident_no_space _ Hid) as Hsp.
  unfold sanitizeHeader at 1.
  rewrite (trim_no_space _ Hsp), (wsRunsToUnderscore_no_space _ false Hsp),
    (filter_all _ _ Hid).
  destruct (sanitizeHeader h i); [congruence|]. now rewrite Hd.
Qed.

Lemma numbered_identifier (clean : jsstring) (k : N) :
  isIdentifier clean = true -> isIdentifier (numbered clean k) = true.
Proof.
  rewrite !isIdentifier_spec. intros (Hne & Hid & Hd). unfold numbered.
  split; [destruct clean; [congruence|discriminate]|]. split.
  - rewrite !forallb_app, Hid. cbn [forallb].
    now rewrite (digits_ident _ (natToString_digits _)).
  - destruct clean; [congruence|exact Hd].
Qed.

Lemma uniqueName_identifier (clean : jsstring) (seenHeaders : gset jsstring) :
  isIdentifier clean = true ->
  isIdentifier (uniqueName clean seenHeaders) = true.
Proof.
  intros H. unfold uniqueName.
  destruct (uniqueLoop_shape (S (size seenHeaders)) clean seenHeaders clean 1)
    as [->|[k ->]]; [exact H|now apply numbered_identifier].
Qed.

Lemma sanitizeHeaders_identifiers (rawHeaders : list jsstring) (i : nat)
    (seenHeaders : gset jsstring) :
  forallb isIdentifier (sanitizeHeaders rawHeaders i seenHeaders) = true.
Proof.
  revert i seenHeaders.
  induction rawHeaders as [|h r IH]; intros i seenHeaders; [reflexivity|].
  cbn [sanitizeHeaders forallb].
  now rewrite uniqueName_identifier, IH by apply sanitizeHeader_identifier.
Qed.

(** X10: the column names of a CSV text: one per field of the header line,
    pairwise different, each a non-empty name of letters, digits and
    underscores that does not start with a digit. *)
Theorem csvHeaders_identifiers (text : jsstring) :
  NoDup (csvHeaders text)
  /\ forallb isIdentifier (csvHeaders text) = true
  /\ forall headerLine rest,
       csvLines text = headerLine :: rest ->
       length (csvHeaders text) = length (parseCSVLine headerLine).
Proof.
  split; [apply csvHeaders_NoDup|]. split.
  - unfold csvHeaders. destruct (csvLines text); [reflexivity|].
    apply sanitizeHeaders_identifiers.
  - intros headerLine rest E. unfold csvHeaders. rewrite E.
    generalize (parseCSVLine headerLine) 0%nat (∅ : gset jsstring).
    induction l as [|h r IH]; intros i seen; [reflexivity|].
    cbn [sanitizeHeaders length]. now rewrite IH.
Qed.

(** *** Table names *)

(** X15: the table name of [loadTableFromCSV] is made of letters, digits and
    underscores, does not start with a digit, has no two adjacent
    underscores, is empty only for the empty name, and is a fixed point of
    the sanitizer. *)
Theorem sanitizeTableName_shape (n : jsstring) :
  let r := sanitizeTableName n in
  forallb isIdentChar r = true
  /\ startsWithDigit r = false
  /\ noDoubleUnderscore r = true
  /\ (r = [] <-> n = [])
  /\ sanitizeTableName r = r.
Proof.
  intros r.
  pose (m := List.map (fun c => if isIdentChar c then c else UNDERSCORE)
               (wsRunsToUnderscore false n)).
  pose (p := if startsWithDigit m then UNDERSCORE :: m else m).
  assert (Er : r = collapseUnderscores false p) by reflexivity.
  clearbody r. subst r.
  assert (Hm : forallb isIdentChar m = true).
  { subst m. rewrite forallb_forall. intros x Hx. apply in_map_iff in Hx.
    destruct Hx as (c & <- & _). now destruct (isIdentChar c) eqn:E. }
  assert (Hp : forallb isIdentChar p = true /\ startsWithDigit p = false).
  { subst p. destruct (startsWithDigit m) eqn:E; [|now split].
    split; [|reflexivity]. cbn [forallb]. now rewrite Hm. }
  destruct Hp as [Hpi Hpd].
  assert (Hid : forallb isIdentChar (collapseUnderscores false p) = true).
  { rewrite forallb_forall in *. intros x Hx.
    now apply Hpi, (collapseUnderscores_incl p false). }
  assert (Hd : startsWithDigit (collapseUnderscores false p) = false)
    by now rewrite collapseUnderscores_head.
  destruct (collapseUnderscores_shape p false) as [Hnd _].
  split; [exact Hid|]. split; [exact Hd|]. split; [exact Hnd|]. split.
  - split.
    + intros E. destruct n as [|c n]; [reflexivity|]. exfalso.
      assert (Hmne : m <> []).
      { subst m. cbn [wsRunsToUnderscore].
        destruct (isWhiteSpace c); discriminate. }
      assert (Hpne : p <> []).
      { subst p. destruct (startsWithDigit m); [discriminate|exact Hmne]. }
      destruct p as [|x p']; [congruence|].
      cbn [collapseUnderscores] in E. destruct (x =? UNDERSCORE); discriminate E.
    + intros ->. reflexivity.
  - unfold sanitizeTableName.
    rewrite (wsRunsToUnderscore_no_space _ false (ident_no_space _ Hid)),
      (map_ident_id _ Hid), Hd.
    apply collapseUnderscores_id; [exact Hnd|discriminate].
Qed.

(** *** Rows, in general *)

Lemma NoDup_app_cons_swap {A} (l : list A) (h : A) (r : list A) :
  List.NoDup (l ++ h :: r) -> List.NoDup ((l ++ [h]) ++ r).
Proof. now rewrite <- app_assoc. Qed.

(** Filling a row, whatever the headers: the header [__proto__] adds no
    property while the prototype is untouched, every other header adds
    one. *)
Lemma fillRow_props_general (rt : Runtime) (headers : list jsstring)
    (index : nat) (values : list jsstring) (obj : Obj) :
  List.NoDup (keys (ownProps obj) ++ headers) ->
  protoIsObjectPrototype obj = true \/ ~ In PROTO headers ->
  ownProps (fillRow rt headers index values obj)
  = ownProps obj ++ withoutProto (rowCells rt headers index values).
Proof.
  revert index obj.
  induction headers as [|h r IH]; intros index obj Hnd Hproto;
    cbn [fillRow rowCells withoutProto List.filter];
    [now rewrite app_nil_r|].
  assert (Hh : ~ In h (keys (ownProps obj))).
  { apply NoDup_remove_2 in Hnd. intros Hin. apply Hnd, in_or_app. now left. }
  assert (Hr : ~ In h r).
  { apply NoDup_remove_2 in Hnd. intros Hin. apply Hnd, in_or_app. now right. }
  assert (Hnd' : List.NoDup (keys (ownProps obj) ++ r))
    by now apply NoDup_remove_1 in Hnd.
  cbn [fst]. unfold setProp at 1. rewrite (hasProp_false _ _ Hh).
  destruct (str_eqb h PROTO) eqn:Ep.
  - apply str_eqb_true in Ep. subst h.
    destruct Hproto as [Hflag|Hnot]; [|exfalso; apply Hnot; now left].
    rewrite Hflag. cbn [andb negb].
    destruct (cellValue rt (nth_error values index));
      rewrite IH; cbn [ownProps]; auto.
  - cbn [andb negb]. rewrite IH.
    + cbn [ownProps]. fold (withoutProto (rowCells rt r (S index) values)).
      now rewrite <- app_assoc.
    + cbn [ownProps]. rewrite keys_app. cbn [keys List.map fst].
      apply NoDup_app_cons_swap, Hnd.
    + cbn [protoIsObjectPrototype].
      destruct Hproto as [Hflag|Hnot]; [now left|right].
      intros Hin. apply Hnot. now right.
Qed.

Lemma keys_withoutProto_rowCells (rt : Runtime) (headers : list jsstring)
    (index : nat) (values : list jsstring) :
  keys (withoutProto (rowCells rt headers index values))
  = List.filter (fun h => negb (str_eqb h PROTO)) headers.
Proof.
  revert index. induction headers as [|h r IH]; intros i; [reflexivity|].
  cbn [rowCells withoutProto List.filter fst].
  fold (withoutProto (rowCells rt r (S i) values)).
  destruct (negb (str_eqb h PROTO)); cbn [keys List.map fst];
    [f_equal|]; apply IH.
Qed.


Lemma parseCSV_row_shape (rt : Runtime) (text : jsstring) (row : props) :
  In row (parseCSV rt text) ->
  exists line,
    In line (csvLines text)
    /\ row = withoutProto (rowCells rt (csvHeaders text) 0 (parseCSVLine line)).
Proof.
  intros Hrow.
  destruct (parseCSV_rows rt text row Hrow)
    as (headerLine & dataLines & line & Hlines & Hline & Hparse).
  exists line. split; [rewrite Hlines; now right|].
  unfold parseRow in Hparse.
  destruct (str_eqb (trim line) []); [discriminate|].
  assert (E : ownProps (fillRow rt (csvHeaders text) 0 (parseCSVLine line)
                          emptyObj)
              = withoutProto (rowCells rt (csvHeaders text) 0 (parseCSVLine line))).
  { rewrite fillRow_props_general; [reflexivity| |now left].
    apply NoDup_ListNoDup, csvHeaders_NoDup. }
  destruct (parseCSVLine line) as [|[|c v] [|v' vs]]; try discriminate;
    injection Hparse as <-; exact E.
Qed.



(** X13: a text with fewer than two non-blank lines has no rows, and a text has
    at most one row per non-blank line after the header. *)
Theorem parseCSV_row_count (rt : Runtime) (text : jsstring) :
  (length (parseCSV rt text) <= length (csvLines text) - 1)%nat.
Proof.
  unfold parseCSV.
  destruct (Nat.ltb (length (csvLines text)) 2); [cbn; lia|].
  destruct (csvLines text) as [|headerLine dataLines]; [cbn; lia|].
  cbn [length]. rewrite Nat.sub_1_r. cbn [Nat.pred].
  generalize (parseRow rt (sanitizeHeaders (parseCSVLine headerLine) 0 ∅)).
  intros f. induction dataLines as [|l ls IH]; [cbn; lia|].
  cbn [omap list_omap length]. destruct (f l); cbn [length]; fold (omap f ls); lia.
Qed.

(** *** The lines of a text *)

Lemma splitOn_segments (c : N) (s seg : jsstring) :
  In seg (splitOn c s) -> ~ In c seg /\ forall x, In x seg -> In x s.
Proof.
  revert seg. induction s as [|x r IH]; intros seg; cbn [splitOn].
  - intros [<-|[]]. split; [intros []|tauto].
  - destruct (N.eqb_spec x c) as [->|Hx].
    + intros [<-|H]; [split; [intros []|intros ? []]|].
      destruct (IH seg H) as [H1 H2]. split; [exact H1|].
      intros y Hy. right. now apply H2.
    + destruct (splitOn c r) as [|seg0 segs] eqn:E;
        [now apply splitOn_nonempty in E|].
      intros [<-|H].
      * destruct (IH seg0 ltac:(now left)) as [H1 H2]. split.
        -- intros [H|H]; [congruence|tauto].
        -- intros y [<-|Hy]; [now left|right; now apply H2].
      * destruct (IH seg ltac:(now right)) as [H1 H2]. split; [exact H1|].
        intros y Hy. right. now apply H2.
Qed.

(** X14: no kept line is blank, and none contains a line feed or a carriage
    return: a field cannot span lines. *)
Theorem csvLines_single_lines (text line : jsstring) :
  In line (csvLines text) ->
  trim line <> [] /\ ~ In LF line /\ ~ In CR line.
Proof.
  unfold csvLines. intros H. apply filter_In in H. destruct H as [Hseg Hne].
  apply negb_true_iff, str_eqb_false in Hne.
  destruct (splitOn_segments LF _ line Hseg) as [Hlf Hsub].
  split; [exact Hne|]. split; [exact Hlf|].
  intros Hcr. apply Hsub in Hcr. unfold replaceCR in Hcr.
  apply in_map_iff in Hcr. destruct Hcr as (c & Hc & _).
  destruct (c =? CR) eqn:E; [discriminate Hc|].
  apply N.eqb_neq in E. congruence.
Qed.

(** *** getDb *)

(** X16: with the engine loaded [getDb] returns it with [CALC_AGE] registered:
    the table registry is untouched, a function already registered under
    the name is kept, and a second call changes nothing. *)
Theorem getDb_registers_once (rt : Runtime) (db : Alasql) :
  let db' := registerCalcAge rt db in
  getDb rt (Some db) = Ok db' (Some db')
  /\ tables db' = tables db
  /\ fnCALC_AGE db' = Some (default (CALC_AGE rt) (fnCALC_AGE db))
  /\ getDb rt (Some db') = Ok db' (Some db').
Proof.
  unfold getDb, registerCalcAge.
  destruct db as [ts [f|]]; cbn; repeat split.
Qed.

(** *** More on executeSQL *)

(** X17: when the engine returns, [executeSQL] reports no error and one object
    per element of the returned array, in order: an object or array as it
    is, anything else wrapped as [{value: element}]; a result that is not an
    array gives no rows.  The columns are the keys of the first row. *)
Theorem executeSQL_normalizes (eng : Engine) (rt : Runtime) (sql : jsstring)
    (db db' : Alasql) (result : JSVal) :
  eng sql None (registerCalcAge rt db) = Returned result db' ->
  exists r,
    executeSQL eng rt sql (Some db) = Ok r (Some db')
    /\ qerror r = None /\ qsql r = sql
    /\ forallb isObjectVal (qdata r) = true
    /\ qdata r = List.map (fun v => if isObjectVal v then v
                                    else JObject [(js "value", v)])
                   (match result with JArray es => es | _ => [] end)
    /\ qcolumns r = match qdata r with
                    | r0 :: _ => objectKeys r0
                    | [] => []
                    end.
Proof.
  intros H. unfold executeSQL, getDb. rewrite H.
  eexists. split; [reflexivity|]. cbn [qerror qsql qdata qcolumns].
  repeat split.
  generalize (match result with JArray es => es | _ => [] end).
  induction l as [|v l IH]; [reflexivity|].
  cbn [List.map forallb]. rewrite IH, andb_true_r.
  unfold normalizeRow. now destruct (isObjectVal v) eqn:E.
Qed.

Lemma executeSQL_normalizes_witness :
  exists r,
    executeSQL (fun _ _ db => Returned (JArray [JNumber (Num 1)]) db)
      plainRuntime (js "SELECT VALUE 1") (Some freshDb)
    = Ok r (Some (registerCalcAge plainRuntime freshDb))
    /\ qdata r = [JObject [(js "value", JNumber (Num 1))]]
    /\ qcolumns r = [js "value"].
Proof.
  destruct (executeSQL_normalizes
              (fun _ _ db => Returned (JArray [JNumber (Num 1)]) db)
              plainRuntime (js "SELECT VALUE 1") freshDb
              (registerCalcAge plainRuntime freshDb)
              (JArray [JNumber (Num 1)]) eq_refl)
    as (r & E & _ & _ & _ & Hd & Hc).
  exists r. split; [exact E|]. split; [exact Hd|].
  rewrite Hc, Hd. reflexivity.
Defined.

(** *** More on loadTableFromCSV *)



(** X20: the schema of a load that succeeds names the columns after the headers
    of the text (all but [__proto__]), in their order, and labels each
    [NUMBER] or [STRING]: [NUMBER] exactly when the first row holds a number
    there. *)
Theorem loadTableFromCSV_columns (eng : Engine) (rt : Runtime)
    (tableName0 csvContent : jsstring) (w w' : World) (schema : TableSchema) :
  loadTableFromCSV eng rt tableName0 csvContent w = Ok schema w' ->
  List.map name (columns schema)
  = List.filter (fun h => negb (str_eqb h PROTO))
      (csvHeaders (stripBOM csvContent))
  /\ exists firstRow rest,
       parseCSV rt (stripBOM csvContent) = firstRow :: rest
       /\ forall col, In col (columns schema) ->
            type col = (if isNumberVal (getProp firstRow (name col))
                        then js "NUMBER" else js "STRING").
Proof.
  unfold loadTableFromCSV.
  destruct (getDb rt w) as [db0 w0|e0 w0]; [|discriminate].
  destruct (parseCSV rt (stripBOM csvContent)) as [|firstRow rest] eqn:Erows;
    [discriminate|].
  destruct (eng _ None db0) as [r1 db1|e1 db1]; [|discriminate].
  destruct (eng _ None db1) as [r2 db2|e2 db2]; [|discriminate].
  destruct (insertData eng _ _ db2) as [r3 db3|e3 db3]; [|discriminate].
  intros H. injection H as <- _. cbn [columns].
  assert (Hin : In firstRow (parseCSV rt (stripBOM csvContent)))
    by (rewrite Erows; now left).
  destruct (parseCSV_row_shape rt _ firstRow Hin) as (line & _ & Hk).
  apply (f_equal keys) in Hk. rewrite keys_withoutProto_rowCells in Hk.
  split.
  - rewrite <- Hk. unfold inferColumns. rewrite List.map_map. cbn [name].
    now rewrite List.map_id.
  - exists firstRow, rest. split; [reflexivity|].
    intros col Hcol. unfold inferColumns in Hcol.
    apply in_map_iff in Hcol. destruct Hcol as (k & <- & _). reflexivity.
Qed.

Lemma loadTableFromCSV_columns_witness :
  exists schema w',
    loadTableFromCSV miniEngine plainRuntime (js "marks")
      (js "Name,CGPA" ++ [LF] ++ js "Asha,8.5") (Some freshDb) = Ok schema w'
    /\ List.map name (columns schema) = [js "Name"; js "CGPA"]
    /\ List.map type (columns schema) = [js "STRING"; js "NUMBER"].
Proof.
  destruct (loadTableFromCSV miniEngine plainRuntime (js "marks")
              (js "Name,CGPA" ++ [LF] ++ js "Asha,8.5") (Some freshDb))
    as [schema w'|e w'] eqn:E; [|vm_compute in E; discriminate E].
  exists schema, w'. split; [reflexivity|].
  destruct (loadTableFromCSV_columns _ _ _ _ _ _ _ E) as [Hn _].
  split; [exact Hn|].
  vm_compute in E. injection E as <- _. reflexivity.
Defined.

(** *** More on SqlVisualizer *)

Lemma drawable_cases (result : QueryResult) :
  drawable result = false -> SqlVisualizer result = NoChart.
Proof.
  unfold drawable, SqlVisualizer.
  destruct (qdata result) as [|first rest]; [reflexivity|].
  destruct (qerror result) as [[|c e]|]; [discriminate|reflexivity|discriminate].
Qed.

(** X21: nothing is drawn exactly when the result has no rows or carries an
    error text. *)
Theorem SqlVisualizer_none (result : QueryResult) :
  SqlVisualizer result = NoChart
  <-> qdata result = [] \/ exists c e, qerror result = Some (c :: e).
Proof.
  unfold SqlVisualizer.
  destruct (qdata result) as [|first rest] eqn:Ed.
  - split; [now left|reflexivity].
  - destruct (qerror result) as [[|c e]|] eqn:Ee.
    + split; [|intros [H|(c & e & H)]; discriminate H].
      destruct (pieShape _ _); [discriminate|].
      destruct (scatterShape _ _); [discriminate|].
      destruct (isTrend _); discriminate.
    + split; [right; now exists c, e|reflexivity].
    + split; [|intros [H|(c & e & H)]; discriminate H].
      destruct (pieShape _ _); [discriminate|].
      destruct (scatterShape _ _); [discriminate|].
      destruct (isTrend _); discriminate.
Qed.

Lemma SqlVisualizer_drawable (result : QueryResult) (first : JSVal)
    (rest : list JSVal) :
  drawable result = true -> qdata result = first :: rest ->
  SqlVisualizer result
  = if pieShape (first :: rest) first
    then PieChart (nth 0 (stringCols first) []) (nth 0 (numericCols first) [])
    else if scatterShape (first :: rest) first
    then ScatterChart (nth 0 (numericCols first) [])
           (nth 1 (numericCols first) []) (head (stringCols first))
    else if isTrend (stringCols first)
    then LineChart (orKey (head (stringCols first)) (head (objectKeys first)))
           (numericCols first)
    else BarChart (orKey (head (stringCols first)) (head (objectKeys first)))
           (numericCols first).
Proof.
  unfold drawable, SqlVisualizer. intros Hd Hq. rewrite Hq in *.
  destruct (qerror result) as [[|c e]|]; [reflexivity|discriminate|reflexivity].
Qed.

(** X23: a result with rows, no error text, more than five rows and exactly two
    numeric columns in its first row is drawn as a scatter chart of these
    two columns, however many string columns it has. *)
Theorem SqlVisualizer_scatter (result : QueryResult) (first : JSVal)
    (rest : list JSVal) (x y : jsstring) :
  drawable result = true -> qdata result = first :: rest ->
  numericCols first = [x; y] -> (5 < length (first :: rest))%nat ->
  SqlVisualizer result = ScatterChart x y (head (stringCols first)).
Proof.
  intros Hd Hq Hn Hl. rewrite (SqlVisualizer_drawable _ _ _ Hd Hq).
  unfold pieShape, scatterShape. rewrite Hn. cbn [length Nat.eqb nth].
  rewrite andb_false_r. cbn [andb].
  apply Nat.ltb_lt in Hl. cbn [length] in Hl. now rewrite Hl.
Qed.

Lemma SqlVisualizer_scatter_witness :
  let row := JObject [(js "CGPA", JNumber (Num 8)); (js "Tenth", JNumber (Num 90))] in
  SqlVisualizer (mkResult [row; row; row; row; row; row; row; row]
                   [js "CGPA"; js "Tenth"] (js "SELECT CGPA, Tenth FROM t") None)
  = ScatterChart (js "CGPA") (js "Tenth") None.
Proof.
  intros row.
  apply (SqlVisualizer_scatter _ row [row; row; row; row; row; row; row]);
    [reflexivity|reflexivity|reflexivity|cbn; lia].
Defined.

(** X22: a result with rows, no error text, at most ten rows, one string column
    and one numeric column in its first row is drawn as a pie chart,
    whatever the name of the string column: a trend by year or date of at
    most ten rows is never a line chart. *)
Theorem SqlVisualizer_pie (result : QueryResult) (first : JSVal)
    (rest : list JSVal) (s n : jsstring) :
  drawable result = true -> qdata result = first :: rest ->
  stringCols first = [s] -> numericCols first = [n] ->
  (length (first :: rest) <= 10)%nat ->
  SqlVisualizer result = PieChart s n.
Proof.
  intros Hd Hq Hs Hn Hl. rewrite (SqlVisualizer_drawable _ _ _ Hd Hq).
  unfold pieShape. rewrite Hs, Hn. cbn [length Nat.eqb nth andb].
  apply Nat.leb_le in Hl. cbn [length] in Hl. now rewrite Hl.
Qed.

Lemma SqlVisualizer_pie_witness :
  SqlVisualizer
    (mkResult [JObject [(js "Gender", JString (js "F")); (js "Count", JNumber (Num 5))];
               JObject [(js "Gender", JString (js "M")); (js "Count", JNumber (Num 3))]]
       [js "Gender"; js "Count"] (js "SELECT Gender, COUNT(*) FROM t") None)
  = PieChart (js "Gender") (js "Count").
Proof.
  apply (SqlVisualizer_pie _
           (JObject [(js "Gender", JString (js "F")); (js "Count", JNumber (Num 5))])
           [JObject [(js "Gender", JString (js "M")); (js "Count", JNumber (Num 3))]]);
    [reflexivity|reflexivity|reflexivity|reflexivity|cbn; lia].
Defined.

(** X24: with more than ten rows, one string column and one numeric column the
    result is drawn as a line chart when the lower-cased name of the string
    column contains [date] or [year], and as a bar chart otherwise, with the
    numeric column as the only series.  The X axis is the string column, or
    the first column of the row when the name of the string column is
    empty (then the chart is a bar chart). *)
Theorem SqlVisualizer_trend (result : QueryResult) (first : JSVal)
    (rest : list JSVal) (s n : jsstring) :
  drawable result = true -> qdata result = first :: rest ->
  stringCols first = [s] -> numericCols first = [n] ->
  (10 < length (first :: rest))%nat ->
  SqlVisualizer result
  = (if includes (js "date") (toLowerCase s) || includes (js "year") (toLowerCase s)
     then LineChart (Some s) [n]
     else BarChart (match s with
                    | [] => head (objectKeys first)
                    | _ :: _ => Some s
                    end) [n]).
Proof.
  intros Hd Hq Hs Hn Hl. rewrite (SqlVisualizer_drawable _ _ _ Hd Hq).
  unfold pieShape, scatterShape. rewrite Hs, Hn.
  assert (E : Nat.leb (length (first :: rest)) 10 = false)
    by (apply Nat.leb_gt; exact Hl).
  rewrite E. cbn [length Nat.eqb andb isTrend head orKey].
  destruct s as [|c s']; reflexivity.
Qed.

Lemma SqlVisualizer_trend_witness :
  let row := yearRow "2020" 7 in
  SqlVisualizer (mkResult [row; row; row; row; row; row; row; row; row; row; row]
                   [js "Year"; js "Total"] (js "SELECT Year, Total FROM t") None)
  = LineChart (Some (js "Year")) [js "Total"].
Proof.
  intros row.
  refine (SqlVisualizer_trend
            (mkResult [row; row; row; row; row; row; row; row; row; row; row]
               [js "Year"; js "Total"] (js "SELECT Year, Total FROM t") None)
            row [row; row; row; row; row; row; row; row; row; row]
            (js "Year") (js "Total") eq_refl eq_refl eq_refl eq_refl _).
  cbn; lia.
Defined.

(** The same rule on a row whose string column has the empty name and comes
    second: the X axis is the first column. *)
Lemma SqlVisualizer_trend_empty_name :
  let row := JObject [(js "n", JNumber (Num 1)); ([], JString (js "x"))] in
  SqlVisualizer (mkResult [row; row; row; row; row; row; row; row; row; row; row]
                   [js "n"; []] (js "q") None)
  = BarChart (Some (js "n")) [js "n"].
Proof. reflexivity. Qed.

(** X25: the caption agrees with the chart: it reads [Scatter] exactly for a
    scatter chart and [Pie] exactly for a pie chart, although it tests the
    two shapes in the other order. *)
Theorem chartCaption_agrees (result : QueryResult) :
  drawable result = true ->
  (chartCaption result = js "Scatter"
   <-> exists x y z, SqlVisualizer result = ScatterChart x y z)
  /\ (chartCaption result = js "Pie"
      <-> exists s n, SqlVisualizer result = PieChart s n).
Proof.
  intros Hd.
  destruct (qdata result) as [|first rest] eqn:Hq;
    [unfold drawable in Hd; now rewrite Hq in Hd|].
  rewrite (SqlVisualizer_drawable _ _ _ Hd Hq).
  unfold chartCaption. rewrite Hq.
  assert (Hex : pieShape (first :: rest) first = true ->
                scatterShape (first :: rest) first = false).
  { unfold pieShape, scatterShape. rewrite !andb_true_iff.
    intros [[_ _] Hn]. apply Nat.eqb_eq in Hn. now rewrite Hn. }
  destruct (pieShape (first :: rest) first) eqn:Ep.
  - rewrite (Hex eq_refl). split.
    + split; [discriminate|intros (x & y & z & H); discriminate H].
    + split; [intros _; now eexists _, _|reflexivity].
  - destruct (scatterShape (first :: rest) first) eqn:Es.
    + split.
      * split; [intros _; now eexists _, _, _|reflexivity].
      * split; [discriminate|intros (s & n & H); discriminate H].
    + split.
      * split; [discriminate|].
        intros (x & y & z & H). destruct (isTrend _); discriminate H.
      * split; [discriminate|].
        intros (s & n & H). destruct (isTrend _); discriminate H.
Qed.

Lemma chartCaption_agrees_witness :
  chartCaption
    (mkResult [yearRow "2021" 40] [js "Year"; js "Total"] (js "q") None)
  = js "Pie".
Proof.
  apply (proj2 (chartCaption_agrees
                  (mkResult [yearRow "2021" 40] [js "Year"; js "Total"] (js "q") None)
                  eq_refl)).
  now eexists _, _.
Defined.

(** X18: a query on which the engine throws is never drawn. *)
Theorem executeSQL_error_not_drawn (eng : Engine) (rt : Runtime)
    (sql : jsstring) (db db' : Alasql) (e : JSError) :
  eng sql None (registerCalcAge rt db) = Thrown e db' ->
  exists r, executeSQL eng rt sql (Some db) = Ok r (Some db')
            /\ SqlVisualizer r = NoChart.
Proof.
  intros H. unfold executeSQL, getDb. rewrite H.
  eexists. split; reflexivity.
Qed.

Lemma executeSQL_error_not_drawn_witness :
  exists r,
    executeSQL (throwingEngine (mkError (js "Parse error")))
      plainRuntime (js "SELEC") (Some freshDb)
    = Ok r (Some (registerCalcAge plainRuntime freshDb))
    /\ SqlVisualizer r = NoChart.
Proof.
  exact (executeSQL_error_not_drawn (throwingEngine (mkError (js "Parse error")))
           plainRuntime (js "SELEC") freshDb
           (registerCalcAge plainRuntime freshDb)
           (mkError (js "Parse error")) eq_refl).
Defined.

(** *** Numbering duplicates *)

Lemma uniqueLoop_first_free (fuel : nat) (clean : jsstring)
    (seenHeaders : gset jsstring) (cur : jsstring) (counter : N) :
  let u := uniqueLoop fuel clean seenHeaders cur counter in
  u = cur
  \/ (cur ∈ seenHeaders
      /\ exists k, counter <= k /\ u = numbered clean k
           /\ forall j, counter <= j < k -> numbered clean j ∈ seenHeaders).
Proof.
  revert cur counter. induction fuel as [|f IH]; intros cur counter;
    cbn [uniqueLoop]; [now left|].
  destruct (decide (cur ∈ seenHeaders)) as [Hin|Hout]; [|now left].
  right. split; [exact Hin|].
  destruct (IH (clean ++ [UNDERSCORE] ++ natToString counter) (counter + 1))
    as [E|(Hc & k & Hk & E & Hall)].
  - exists counter. split; [lia|]. split; [exact E|]. intros j Hj. lia.
  - exists k. split; [lia|]. split; [exact E|]. intros j Hj.
    destruct (N.eq_dec j counter) as [->|Hne]; [exact Hc|]. apply Hall. lia.
Qed.

(** X9: a sanitized name that was not given before is kept; one that was is
    given the suffix [_k] for the least [k] from 1 whose name is free.  The
    result is never a name given before. *)
Theorem uniqueName_first_free (clean : jsstring) (seenHeaders : gset jsstring) :
  (uniqueName clean seenHeaders ∉ seenHeaders)
  /\ (clean ∉ seenHeaders -> uniqueName clean seenHeaders = clean)
  /\ (clean ∈ seenHeaders ->
      exists k, 1 <= k
        /\ uniqueName clean seenHeaders = clean ++ [UNDERSCORE] ++ natToString k
        /\ forall j, 1 <= j < k ->
             (clean ++ [UNDERSCORE] ++ natToString j) ∈ seenHeaders).
Proof.
  pose proof (uniqueName_fresh clean seenHeaders) as Hfresh.
  split; [exact Hfresh|]. split.
  - intros Hout. unfold uniqueName. cbn [uniqueLoop].
    now destruct (decide (clean ∈ seenHeaders)).
  - intros Hin. unfold uniqueName in *.
    destruct (uniqueLoop_first_free (S (size seenHeaders)) clean seenHeaders
                clean 1) as [E|(_ & k & Hk & E & Hall)].
    + rewrite E in Hfresh. contradiction.
    + exists k. split; [exact Hk|]. split; [exact E|exact Hall].
Qed.

Lemma uniqueName_first_free_witness :
  exists k, 1 <= k
    /\ uniqueName (js "Name") {[js "Name"; js "Name_1"]}
       = js "Name" ++ [UNDERSCORE] ++ natToString k.
Proof.
  destruct (uniqueName_first_free (js "Name") {[js "Name"; js "Name_1"]})
    as (_ & _ & H).
  destruct H as (k & Hk & E & _).
  - apply elem_of_union. left. now apply elem_of_singleton.
  - exists k. split; [exact Hk|exact E].
Defined.

Lemma csvLines_single_lines_witness :
  trim (js "1,2") <> [] /\ ~ In LF (js "1,2") /\ ~ In CR (js "1,2").
Proof.
  apply (csvLines_single_lines (js "a,b" ++ [CR; LF] ++ js "1,2" ++ [CR]) (js "1,2")).
  vm_compute. right. now left.
Defined.

Lemma csvHeaders_identifiers_witness :
  length (csvHeaders (js "Sl No,10th% or CGPA" ++ [LF] ++ js "1,81%")) = 2%nat.
Proof.
  destruct (csvHeaders_identifiers (js "Sl No,10th% or CGPA" ++ [LF] ++ js "1,81%"))
    as (_ & _ & H).
  rewrite (H (js "Sl No,10th% or CGPA") [js "1,81%"] eq_refl). reflexivity.
Defined.

(** *** Surrounding white space *)

Lemma dropWhile_idem {A} (p : A -> bool) (l : list A) :
  dropWhile p (dropWhile p l) = dropWhile p l.
Proof.
  induction l as [|x l IH]; [reflexivity|]. cbn [dropWhile].
  destruct (p x) eqn:E; [exact IH|]. cbn [dropWhile]. now rewrite E.
Qed.

Lemma hd_dropWhile {A} (p : A -> bool) (l : list A) (x : A) (r : list A) :
  dropWhile p l = x :: r -> p x = false.
Proof.
  induction l as [|y l IH]; cbn [dropWhile]; [discriminate|].
  destruct (p y) eqn:E; [exact IH|]. intros H. now injection H as <- _.
Qed.

Lemma trimEnd_spec (s : jsstring) :
  exists w, s = trimEnd s ++ w /\ forallb isWhiteSpace w = true
            /\ trimEnd (trimEnd s) = trimEnd s.
Proof.
  unfold trimEnd.
  exists (rev (takeWhile isWhiteSpace (rev s))). repeat split.
  - rewrite <- rev_app_distr, takeWhile_dropWhile. now rewrite rev_involutive.
  - rewrite forallb_rev. apply takeWhile_forallb.
  - now rewrite rev_involutive, dropWhile_idem.
Qed.

(** X5: white space around a field never matters: trimming twice is
    trimming once, and the value stored for a field is the value stored for
    the trimmed field. *)
Theorem cellValue_ignores_outer_space (rt : Runtime) (raw : jsstring) :
  trim (trim raw) = trim raw
  /\ cellValue rt (Some raw) = cellValue rt (Some (trim raw)).
Proof.
  assert (Hidem : trim (trim raw) = trim raw).
  { unfold trim, trimStart.
    set (y := dropWhile isWhiteSpace raw).
    destruct (trimEnd_spec y) as (w & Hy & Hw & Hidem).
    destruct (trimEnd y) as [|x t] eqn:Et; [reflexivity|].
    assert (Hx : isWhiteSpace x = false).
    { destruct y as [|y0 y'] eqn:Ey; [destruct w; discriminate Hy|].
      cbn [app] in Hy. injection Hy as -> _.
      apply (hd_dropWhile isWhiteSpace raw x y'). exact Ey. }
    cbn [dropWhile]. rewrite Hx. exact Hidem. }
  split; [exact Hidem|]. unfold cellValue. now rewrite Hidem.
Qed.

Lemma executeSQL_captures_engine_errors_witness :
  exists r w',
    executeSQL (throwingEngine (mkError (js "Parse error on line 1")))
      plainRuntime (js "SELEC 1") (Some freshDb) = Ok r w'
    /\ qdata r = [] /\ qcolumns r = []
    /\ qerror r = Some (js "Parse error on line 1").
Proof.
  destruct (executeSQL_captures_engine_errors
              (throwingEngine (mkError (js "Parse error on line 1")))
              plainRuntime (js "SELEC 1")) as [H _].
  destruct (H freshDb) as (r & w' & E & _ & Hthrow).
  exists r, w'. split; [exact E|].
  destruct (Hthrow (mkError (js "Parse error on line 1"))
              (registerCalcAge plainRuntime freshDb) eq_refl)
    as (Hd & Hc & He & _).
  now repeat split.
Defined.

(** *** The handlers of the App *)

(** X26: a question is ignored while it is blank or a request is running;
    with no table loaded it only adds the system error message.  In both
    cases neither the language model nor the engine is used and the world is
    unchanged. *)
Theorem handleSendMessage_guards (eng : Engine) (rt : Runtime)
    (gemini : option Gemini) (st : AppState) (w : World) :
  (trim (input st) = [] \/ isLoading st = true ->
   handleSendMessage eng rt gemini st w = (st, w))
  /\ (trim (input st) <> [] -> isLoading st = false -> appTables st = [] ->
      handleSendMessage eng rt gemini st w
      = (addMessage st
           (mkMessage RoleSystem
              (js "Please upload a dataset or load samples first.")
              TypeError None None None), w)).
Proof.
  unfold handleSendMessage. split.
  - intros [H|H].
    + rewrite H. reflexivity.
    + rewrite H, orb_true_r. reflexivity.
  - intros Hq Hl Ht. apply str_eqb_false in Hq. rewrite Hq, Hl, Ht.
    reflexivity.
Qed.

Lemma handleSendMessage_guards_witness :
  handleSendMessage miniEngine plainRuntime None (idleApp [] (js "how many?"))
    (Some freshDb)
  = (addMessage (idleApp [] (js "how many?"))
       (mkMessage RoleSystem
          (js "Please upload a dataset or load samples first.")
          TypeError None None None), Some freshDb).
Proof.
  apply (proj2 (handleSendMessage_guards miniEngine plainRuntime None
                  (idleApp [] (js "how many?")) (Some freshDb)));
    [discriminate|reflexivity|reflexivity].
Defined.

Lemma answer_assistant (eng : Engine) (rt : Runtime) (gemini : option Gemini)
    (userQuery : jsstring) (tables0 : list TableSchema) (w : World) :
  let reply := fst (answer eng rt gemini userQuery tables0 w) in
  role reply = RoleAssistant
  /\ (msgType reply = TypeSqlResult \/ msgType reply = TypeError).
Proof.
  unfold answer. destruct gemini as [g|]; [|split; [reflexivity|now right]].
  destruct (g userQuery tables0) as [e|[sql explanation]];
    [split; [reflexivity|now right]|].
  destruct (executeSQL eng rt sql w) as [result w'|e w'];
    [|split; [reflexivity|now right]].
  destruct (qerror result) as [[|c err]|]; cbn; split;
    try reflexivity; auto.
Qed.

(** X27: a question asked with a table loaded adds exactly two messages, the
    user's question as typed and then one message of the assistant, which is
    a result or an error; afterwards the input is empty, nothing is loading
    and the list of tables is as before, whatever the language model and the
    engine did. *)
Theorem handleSendMessage_two_messages (eng : Engine) (rt : Runtime)
    (gemini : option Gemini) (st : AppState) (w : World) :
  trim (input st) <> [] -> isLoading st = false -> appTables st <> [] ->
  exists reply,
    let st' := fst (handleSendMessage eng rt gemini st w) in
    messages st'
    = messages st
        ++ [mkMessage RoleUser (input st) TypeText None None None; reply]
    /\ role reply = RoleAssistant
    /\ (msgType reply = TypeSqlResult \/ msgType reply = TypeError)
    /\ input st' = [] /\ isLoading st' = false /\ loadingStep st' = []
    /\ appTables st' = appTables st.
Proof.
  intros Hq Hl Ht. unfold handleSendMessage.
  apply str_eqb_false in Hq. rewrite Hq, Hl. cbn [orb].
  destruct (appTables st) as [|t ts] eqn:Et; [congruence|].
  pose proof (answer_assistant eng rt gemini (input st) (t :: ts) w) as Ha.
  destruct (answer eng rt gemini (input st) (t :: ts) w) as [reply w'].
  cbn [fst] in Ha. destruct Ha as [Hr Hk].
  exists reply. cbn. rewrite <- app_assoc. now repeat split.
Qed.

Lemma handleSendMessage_two_messages_witness :
  exists reply,
    messages (fst (handleSendMessage miniEngine plainRuntime None
                     (idleApp [mkSchema (js "t") [] 1 []] (js "how many?"))
                     (Some freshDb)))
    = [mkMessage RoleUser (js "how many?") TypeText None None None; reply]
    /\ role reply = RoleAssistant.
Proof.
  destruct (handleSendMessage_two_messages miniEngine plainRuntime None
              (idleApp [mkSchema (js "t") [] 1 []] (js "how many?"))
              (Some freshDb)) as (reply & Hm & Hr & _);
    [discriminate|reflexivity|discriminate|].
  exists reply. split; [exact Hm|exact Hr].
Defined.

(** X28: the assistant's message is a result exactly when the language model
    answered, the engine was loaded and the query result carries no
    non-empty error text; the message then carries the generated query and
    the rows of the result.  (An engine error whose message is empty is
    therefore shown as a result without rows.) *)
Theorem answer_sql_result (eng : Engine) (rt : Runtime) (gemini : option Gemini)
    (userQuery : jsstring) (tables0 : list TableSchema) (w : World) :
  let reply := fst (answer eng rt gemini userQuery tables0 w) in
  msgType reply = TypeSqlResult
  <-> exists generateSQL sql explanation result w',
        gemini = Some generateSQL
        /\ generateSQL userQuery tables0 = inr (sql, explanation)
        /\ executeSQL eng rt sql w = Ok result w'
        /\ (qerror result = None \/ qerror result = Some [])
        /\ reply = mkMessage RoleAssistant explanation TypeSqlResult (Some sql)
                     (Some (qdata result)) (Some explanation).
Proof.
  unfold answer. split.
  - destruct gemini as [g|]; [|discriminate].
    destruct (g userQuery tables0) as [e|[sql explanation]] eqn:Eg;
      [discriminate|].
    destruct (executeSQL eng rt sql w) as [result w'|e w'] eqn:Ee;
      [|discriminate].
    destruct (qerror result) as [[|c err]|] eqn:Eq; cbn; try discriminate;
      intros _; exists g, sql, explanation, result, w'; repeat split; auto.
  - intros (g & sql & explanation & result & w' & -> & Eg & Ee & Hq & _).
    rewrite Eg, Ee. now destruct Hq as [-> | ->].
Qed.

Lemma answer_sql_result_witness :
  msgType (fst (answer (throwingEngine (mkError [])) plainRuntime
                  (Some (fixedGemini (js "SELEC") (js "All rows")))
                  (js "show all") [] (Some freshDb)))
  = TypeSqlResult.
Proof.
  apply (proj2 (answer_sql_result (throwingEngine (mkError [])) plainRuntime
                  (Some (fixedGemini (js "SELEC") (js "All rows")))
                  (js "show all") [] (Some freshDb))).
  eexists _, _, _, _, _. split; [reflexivity|]. split; [reflexivity|].
  split; [reflexivity|]. split; [now right|reflexivity].
Defined.


(** X30: uploading two files under the same name, with both loads
    succeeding on an engine that registers the tables it creates, leaves two
    entries of the same table name in the App's table list, while the engine
    holds one table of that name with the rows of the second file only. *)
Theorem processFile_twice (eng : Engine) (rt : Runtime)
    (fileName text1 text2 : jsstring) (st : AppState) (w w1 w2 : World)
    (schema1 schema2 : TableSchema) :
  registersCreatedTables eng ->
  loadTableFromCSV eng rt (uploadName fileName) text1 w = Ok schema1 w1 ->
  loadTableFromCSV eng rt (uploadName fileName) text2 w1 = Ok schema2 w2 ->
  let '(st1, _) := processFile eng rt fileName text1 st w in
  let '(st2, w') := processFile eng rt fileName text2 st1 w1 in
  appTables st2 = appTables st ++ [schema1; schema2]
  /\ tableName schema1 = tableName schema2
  /\ w' = w2
  /\ exists db ts,
       w2 = Some db /\ tables db = Some ts
       /\ ts !! tableName schema2
          = Some (mkTable (List.map JObject (parseCSV rt (stripBOM text2)))).
Proof.
  intros Hreg H1 H2. unfold processFile.
  rewrite H1. cbn [stopLoading addMessage appTables messages input].
  rewrite H2. cbn [stopLoading addMessage appTables].
  destruct (loadTableFromCSV_ok eng rt _ text1 w w1 schema1 Hreg H1)
    as (Hn1 & _).
  destruct (loadTableFromCSV_ok eng rt _ text2 w1 w2 schema2 Hreg H2)
    as (Hn2 & _ & _ & _ & db & ts & Hw & Ht & Hl).
  split; [now rewrite <- app_assoc|]. split; [congruence|].
  split; [reflexivity|].
  exists db, ts. split; [exact Hw|]. split; [exact Ht|].
  rewrite Hn2. exact Hl.
Qed.


Lemma processFile_twice_witness :
  let text1 := js "n" ++ [LF] ++ js "1" ++ [LF] ++ js "2" in
  let text2 := js "n" ++ [LF] ++ js "3" in
  let '(st1, w1) := processFile miniEngine plainRuntime (js "my marks.csv") text1
                      (idleApp [] []) (Some freshDb) in
  let '(st2, _) := processFile miniEngine plainRuntime (js "my marks.csv") text2
                     st1 w1 in
  List.map tableName (appTables st2) = [js "my_marks"; js "my_marks"]
  /\ List.map rowCount (appTables st2) = [2%nat; 1%nat].
Proof.
  intros text1 text2.
  destruct (loadTableFromCSV miniEngine plainRuntime (uploadName (js "my marks.csv"))
              text1 (Some freshDb)) as [schema1 w1|e w1] eqn:E1;
    [|vm_compute in E1; discriminate E1].
  pose proof E1 as E1'. vm_compute in E1'. injection E1' as Hs1 Hw1.
  destruct (loadTableFromCSV miniEngine plainRuntime (uploadName (js "my marks.csv"))
              text2 w1) as [schema2 w2|e w2] eqn:E2;
    [|rewrite <- Hw1 in E2; vm_compute in E2; discriminate E2].
  pose proof E2 as E2'. rewrite <- Hw1 in E2'. vm_compute in E2'.
  injection E2' as Hs2 Hw2.
  pose proof (processFile_twice miniEngine plainRuntime (js "my marks.csv")
                text1 text2 (idleApp [] []) (Some freshDb) w1 w2 schema1 schema2
                miniEngine_registers E1 E2) as H.
  unfold processFile in *. rewrite E1 in *.
  cbn [stopLoading addMessage appTables messages input] in *.
  rewrite E2 in *. cbn [stopLoading addMessage appTables] in *.
  destruct H as (Ht & Hn & _). rewrite Ht. cbn [List.map app idleApp appTables].
  rewrite <- Hn, <- Hs1, <- Hs2. split; reflexivity.
Defined.
